(** * Bitbucket Server reporters of buildbot

    A shallow embedding of [master/buildbot/reporters/bitbucketserver.py]:
    the status reporter [BitbucketServerStatusPush] and the pull-request
    comment reporter [BitbucketServerPRCommentPush].

    The two reporters talk to the outside world (HTTP POSTs, the log) and
    may raise.  Both are modelled in a small monad [M] that records the
    events a call emits and carries either a value or the exception that
    ended the call.  The collaborators that live outside the file (the
    renderer of the property store, the HTTP client, [urlparse], the base
    notifier) are parameters of the definitions. *)

From stdpp Require Import gmap strings list.

Local Open Scope string_scope.
Local Open Scope list_scope.

(** ** Data model *)

(** Modelled from the spec: the outcome enumeration of
    [buildbot.process.results], imported by the reporter and not part of
    the file; only [SUCCESS] is named by the code. *)
Inductive Results : Set :=
  | SUCCESS | WARNINGS | FAILURE | SKIPPED | EXCEPTION | RETRY | CANCELLED.

#[global] Instance Results_eq_dec : EqDecision Results.
Proof. solve_decision. Defined.

(** The property values the reporters look at: [None], a string, or a
    per-codebase dictionary whose entries are strings or [None]. *)
Inductive PropVal : Type :=
  | PNone
  | PStr (s : string)
  | PDict (d : gmap string (option string)).

Record SourceStamp : Type := mkSourceStamp {
  codebase : string;
  revision : option string
}.

Record BuildSet : Type := mkBuildSet {
  sourcestamps : list SourceStamp
}.

(** [build['results']] is [None] while the build runs. *)
Record Build : Type := mkBuild {
  complete : bool;
  results : option Results;
  properties : gmap string PropVal;
  url : string;
  buildset : BuildSet
}.

(** A renderable: a plain string or an [Interpolate] object. *)
Inductive Template : Type :=
  | TStr (s : string)
  | Interpolate (fmt : string).

(** Python truthiness of a renderable: only the empty string is false. *)
Definition truthy (t : Template) : bool :=
  match t with
  | TStr s => negb (bool_decide (s = EmptyString))
  | Interpolate _ => true
  end.

(** [a or b] on an optional renderable. *)
Definition or_default (a : option Template) (b : Template) : Template :=
  match a with
  | Some t => if truthy t then t else b
  | None => b
  end.

(** The JSON body of a request: a dictionary of strings. *)
Abbreviation Payload := (gmap string string).

Record Response : Type := mkResponse {
  code : Z;
  content : string
}.

Inductive exn : Type :=
  | KeyError (key : string)
  | TypeError (msg : string)
  | Raised (what : string).

Inductive Level : Set := Info | Error.

Inductive LogVal : Type :=
  | LNone
  | LInt (z : Z)
  | LStr (s : string).

(** What a call does to the outside world: a POST handed to the HTTP
    client, or a log record (format string and keyword arguments). *)
Inductive Event : Type :=
  | EvPost (path : string) (json : Payload)
  | EvLog (lvl : Level) (fmt : string) (kwargs : list (string * LogVal)).

(** Magic words understood by Bitbucket Server REST API *)
Definition INPROGRESS : string := "INPROGRESS".
Definition SUCCESSFUL : string := "SUCCESSFUL".
Definition FAILED : string := "FAILED".
Definition STATUS_API_URL (sha : string) : string :=
  "/rest/build-status/1.0/commits/" +:+ sha.
Definition COMMENT_API_URL (path : string) : string :=
  "/rest/api/1.0" +:+ path +:+ "/comments".
Definition HTTP_PROCESSED : Z := 204.
Definition HTTP_CREATED : Z := 201.

(** The double quote character, and the format strings of the log records. *)
Definition dquote : string :=
  String (Ascii.Ascii false true false false false true false false) EmptyString.
Definition STATUS_SENT_FMT : string :=
  "Status " +:+ dquote +:+ "{status}" +:+ dquote +:+ " sent for {sha}.".

(** ** The monad of a reporter call

    A computation reads the events emitted so far (the HTTP client may
    answer according to them) and returns the events it emits itself,
    with its value or the exception that stopped it. *)
Definition M (A : Type) : Type := list Event → list Event * (exn + A).

Definition ret {A} (a : A) : M A := λ _, ([], inr a).

Definition raise {A} (e : exn) : M A := λ _, ([], inl e).

Definition bind {A B} (m : M A) (k : A → M B) : M B :=
  λ h,
    match m h with
    | (ev, inl e) => (ev, inl e)
    | (ev, inr a) =>
        match k a (h ++ ev) with
        | (ev', r) => (ev ++ ev', r)
        end
    end.

Declare Scope reporter_scope.
Delimit Scope reporter_scope with reporter.
Notation "'do' x <- m ; k" := (bind m (λ x, k))
  (at level 20, x name, m at level 100, k at level 200) : reporter_scope.
Notation "'do_' m ; k" := (bind m (λ _, k))
  (at level 20, m at level 100, k at level 200) : reporter_scope.
Local Open Scope reporter_scope.

Definition lift {A} (r : exn + A) : M A := λ _, ([], r).

Definition emit (e : Event) : M unit := λ _, ([e], inr tt).

Definition log_error (fmt : string) (kwargs : list (string * LogVal)) : M unit :=
  emit (EvLog Error fmt kwargs).

Definition log_info (fmt : string) (kwargs : list (string * LogVal)) : M unit :=
  emit (EvLog Info fmt kwargs).

(** A [for] loop whose body may [continue] (return early) or raise. *)
Fixpoint for_each {A} (l : list A) (body : A → M unit) : M unit :=
  match l with
  | [] => ret tt
  | x :: l' => do_ body x; for_each l' body
  end.

(** The events and the outcome of a call. *)
Definition events {A} (r : list Event * (exn + A)) : list Event := r.1.
Definition outcome {A} (r : list Event * (exn + A)) : exn + A := r.2.

(** The POSTs among the events of a call, in order. *)
Definition posts (ev : list Event) : list (string * Payload) :=
  omap (λ e, match e with EvPost p j => Some (p, j) | EvLog _ _ _ => None end) ev.

(** ** The property store

    [buildbot.process.properties.Properties], as far as the reporters use
    it: a read-only mapping from property names to values. *)
Module Properties.

(** Modelled from the spec: [Properties.fromDict], which is not part of the
    file; the store built from the [properties] of a build holds the same
    values under the same names. *)
Definition fromDict (d : gmap string PropVal) : gmap string PropVal := d.

(** Modelled from the spec: [Properties.getProperty], which is not part of
    the file; [get(name, default) -> value]. *)
Definition getProperty (props : gmap string PropVal) (name : string)
    (default_ : PropVal) : PropVal :=
  default default_ (props !! name).

End Properties.

(** ** The collaborators *)

(** [props.render]: resolves a renderable against the property store. *)
Abbreviation Renderer := (gmap string PropVal → Template → exn + string).

(** [self._http.post]: the answer of the HTTP client to a request, given
    the events that came before it. *)
Abbreviation Transport := (list Event → string → Payload → exn + Response).

Definition render (rd : Renderer) (props : gmap string PropVal) (t : Template)
    : M string :=
  lift (rd props t).

(** The request is handed to the client (and recorded) before the client
    answers or raises. *)
Definition http_post (tr : Transport) (path : string) (json : Payload)
    : M Response :=
  λ h, ([EvPost path json], tr h path json).

(** A build with another sequence of source stamps (used to speak of the
    source stamps before and after a given one). *)
Definition with_sourcestamps (build : Build) (l : list SourceStamp) : Build :=
  {| complete := complete build;
     results := results build;
     properties := properties build;
     url := url build;
     buildset := {| sourcestamps := l |} |}.

(** ** BitbucketServerStatusPush *)
Module BitbucketServerStatusPush.

Record Config : Type := mkConfig {
  key : Template;
  statusName : option Template;
  endDescription : Template;
  startDescription : Template;
  verbose : bool
}.

Definition reconfigService
    (key statusName startDescription endDescription : option Template)
    (verbose : bool) : Config :=
  {| key := or_default key (Interpolate "%(prop:buildername)s");
     statusName := statusName;
     endDescription := or_default endDescription (TStr "Build done.");
     startDescription := or_default startDescription (TStr "Build started.");
     verbose := verbose |}.

(** Lines 76-82: the commit hash of a source stamp. *)
Definition resolve_sha (got_revision : PropVal) (sourcestamp : SourceStamp)
    : exn + option string :=
  match revision sourcestamp with
  | Some sha => inr (Some sha)
  | None =>
      match got_revision with
      | PDict d =>
          match d !! codebase sourcestamp with
          | Some sha => inr sha
          | None => inl (KeyError (codebase sourcestamp))
          end
      | PStr s => inr (Some s)
      | PNone => inr None
      end
  end.

Section Send.
Variable rd : Renderer.
Variable tr : Transport.
Variable self : Config.

(** Lines 88-97: the payload of a status. *)
Definition status_payload (build : Build) (props : gmap string PropVal)
    (status : string) (description : Template) : M Payload :=
  do key <- render rd props (key self);
  let payload : Payload :=
    {[ "state" := status; "url" := url build; "key" := key ]} in
  do payload <-
    (if truthy description
     then do d <- render rd props description;
          ret (<["description" := d]> payload)
     else ret payload);
  match statusName self with
  | Some name =>
      if truthy name
      then do n <- render rd props name;
           ret (<["name" := n]> payload)
      else ret payload
  | None => ret payload
  end.

(** Lines 76-107: the body of the loop over the source stamps. *)
Definition send_sourcestamp (build : Build) (props : gmap string PropVal)
    (status : string) (description : Template) (got_revision : PropVal)
    (sourcestamp : SourceStamp) : M unit :=
  do sha <- lift (resolve_sha got_revision sourcestamp);
  match sha with
  | None => log_error "Unable to get the commit hash" []
  | Some sha =>
      do payload <- status_payload build props status description;
      do response <- http_post tr (STATUS_API_URL sha) payload;
      if bool_decide (code response = HTTP_PROCESSED)
      then
        if verbose self
        then log_info STATUS_SENT_FMT
               [("status", LStr status); ("sha", LStr sha)]
        else ret tt
      else
        let content := content response in
        log_error "{code}: Unable to send Bitbucket Server status: {content}"
          [("code", LInt (code response)); ("content", LStr content)]
  end.

Definition send (build : Build) : M unit :=
  let props := Properties.fromDict (properties build) in
  let results := results build in
  let '(status, description) :=
    if complete build
    then (if bool_decide (results = Some SUCCESS) then SUCCESSFUL else FAILED,
          endDescription self)
    else (INPROGRESS, startDescription self) in
  let got_revision := Properties.getProperty props "got_revision" PNone in
  for_each (sourcestamps (buildset build))
    (send_sourcestamp build props status description got_revision).

End Send.

End BitbucketServerStatusPush.

(** ** BitbucketServerPRCommentPush *)
Module BitbucketServerPRCommentPush.

Record Config : Type := mkConfig {
  verbose : bool
}.

(** Adding a value to a Python set hashes it; a dictionary is not
    hashable. *)
Definition hashable (v : PropVal) : exn + option string :=
  match v with
  | PNone => inr None
  | PStr s => inr (Some s)
  | PDict _ => inl (TypeError "unhashable type: 'dict'")
  end.

(** Lines 150-153: the set of the pull-request URLs of the builds. *)
Fixpoint collect_pr_urls (builds : list Build) (pr_urls : gset (option string))
    : exn + gset (option string) :=
  match builds with
  | [] => inr pr_urls
  | build :: builds' =>
      let props := Properties.fromDict (properties build) in
      match hashable (Properties.getProperty props "pullrequesturl" PNone) with
      | inl e => inl e
      | inr u => collect_pr_urls builds' ({[ u ]} ∪ pr_urls)
      end
  end.

Section Notifier.
(** [notifier.NotifierBase.isMessageNeeded], the filter of the base class. *)
Variable base_isMessageNeeded : Build → bool.
(** The path of a URL as a native string:
    [bytes2NativeString(urlparse(unicode2bytes(pr_url)).path)]. *)
Variable url_path : option string → exn + string.
Variable tr : Transport.
Variable self : Config.

Definition isMessageNeeded (build : Build) : bool :=
  if bool_decide (is_Some (properties build !! "pullrequesturl"))
  then base_isMessageNeeded build
  else false.

Definition workerMissing (key worker : string) : M unit := ret tt.

(** Lines 155-169: the body of the loop over the pull-request URLs. *)
Definition send_comment (body : string) (pr_url : option string) : M unit :=
  do path <- lift (url_path pr_url);
  let payload : Payload := {[ "text" := body ]} in
  do response <- http_post tr (COMMENT_API_URL path) payload;
  if bool_decide (code response = HTTP_CREATED)
  then
    if verbose self
    then log_info "{comment} sent to {url}"
           [("comment", LStr body);
            ("url", match pr_url with Some u => LStr u | None => LNone end)]
    else ret tt
  else
    let content := content response in
    log_error "{code}: Unable to send a comment: {content}"
      [("code", LInt (code response)); ("content", LStr content)].

(** [builds] defaults to [None], which the first loop cannot iterate.  The
    set is walked in the order of [elements], one enumeration among those
    Python may choose (its order also depends on the insertions): what is
    proved of [sendMessage] is stated up to the order of the walk. *)
Definition sendMessage (body : string) (builds : option (list Build)) : M unit :=
  do builds <-
    lift (match builds with
          | Some l => inr l
          | None => inl (TypeError "'NoneType' object is not iterable")
          end);
  do pr_urls <- lift (collect_pr_urls builds ∅);
  for_each (elements pr_urls) (send_comment body).

End Notifier.

End BitbucketServerPRCommentPush.

(** ** Concrete collaborators and builds *)
Module Examples.

(** A renderer: a plain string renders to itself, an [Interpolate] to the
    [buildername] property (or raises when there is none). *)
Definition rd0 : Renderer :=
  λ props t,
    match t with
    | TStr s => inr s
    | Interpolate _ =>
        match props !! "buildername" with
        | Some (PStr s) => inr s
        | _ => inl (KeyError "buildername")
        end
    end.

(** A client that answers every request with the same response. *)
Definition tr_const (c : Z) (body : string) : Transport :=
  λ _ _ _, inr (mkResponse c body).

(** A URL parser that takes what follows [https://host] (enough for the
    URLs below); [None] has the empty path. *)
Definition url_path0 : option string → exn + string :=
  λ u,
    match u with
    | Some s => inr (String.substring 12 (String.length s - 12) s)
    | None => inr EmptyString
    end.

Definition cfg0 : BitbucketServerStatusPush.Config :=
  BitbucketServerStatusPush.reconfigService None None None None false.

Definition props0 : gmap string PropVal :=
  {[ "buildername" := PStr "Builder0" ]}.

Definition mk (c : bool) (r : option Results) (props : gmap string PropVal)
    (ss : list SourceStamp) : Build :=
  mkBuild c r props "http://localhost:8080/#builders/79/builds/0" (mkBuildSet ss).

Definition ss_abc : SourceStamp := mkSourceStamp "main" (Some "abc123").
Definition ss_null : SourceStamp := mkSourceStamp "main" None.
Definition ss_lib : SourceStamp := mkSourceStamp "lib" None.

Definition tr_ok : Transport := tr_const 204 "ok".

Definition b_done : Build := mk true (Some SUCCESS) props0 [ss_abc].

Definition json_done : Payload :=
  {[ "state" := "SUCCESSFUL";
     "url" := "http://localhost:8080/#builders/79/builds/0";
     "key" := "Builder0";
     "description" := "Build done." ]}.

Definition got_lib : PropVal := PDict {[ "lib" := Some "fff000" ]}.

(** Two repositories; [got_revision] knows only [lib]. *)
Definition b_multi : Build :=
  mk false None (<[ "got_revision" := got_lib ]> props0) [ss_lib; ss_null; ss_abc].

(** The first source stamp has no commit hash at all. *)
Definition b_skip : Build := mk true (Some FAILURE) props0 [ss_null; ss_abc].

Definition json_started : Payload :=
  {[ "state" := "INPROGRESS";
     "url" := "http://localhost:8080/#builders/79/builds/0";
     "key" := "Builder0";
     "description" := "Build started." ]}.

(** Two source stamps at the same commit. *)
Definition b_dup : Build :=
  mk true (Some SUCCESS) (<[ "got_revision" := PStr "abc123" ]> props0)
    [ss_abc; ss_null].

Definition pr_build (u : string) : Build :=
  mk true (Some SUCCESS) (<[ "pullrequesturl" := PStr u ]> props0) [ss_abc].

(** What [rd0] renders against [props0]. *)
Definition rendered0 (t : Template) : string :=
  match t with
  | TStr s => s
  | Interpolate _ => "Builder0"
  end.

Definition respond_const (c : Z) (body : string)
    : list Event → string → Payload → Response :=
  λ _ _ _, mkResponse c body.

(** A client whose first request fails to connect. *)
Definition tr_first_fails : Transport :=
  λ h _ _,
    match posts h with
    | [] => inl (Raised "ConnectionRefusedError")
    | _ :: _ => inr (mkResponse 201 "ok")
    end.

Definition tr_created : Transport := tr_const 201 "ok".

Definition tr_500 : Transport := tr_const 500 "server error".

(** The [pullrequesturl] property of a build, when it is a string. *)
Definition url_of0 (b : Build) : option string :=
  match properties b !! "pullrequesturl" with
  | Some (PStr s) => Some s
  | _ => None
  end.

Definition path_of0 (u : option string) : string :=
  match u with
  | Some s => String.substring 12 (String.length s - 12) s
  | None => EmptyString
  end.

Definition pr_cfg : BitbucketServerPRCommentPush.Config :=
  BitbucketServerPRCommentPush.mkConfig false.

(** Three builds of two pull requests. *)
Definition batch : list Build :=
  [ pr_build "https://host/prs/42";
    pr_build "https://host/prs/42";
    pr_build "https://host/prs/43" ].

(** Two builds of two pull requests. *)
Definition batch2 : list Build :=
  [ pr_build "https://host/prs/42"; pr_build "https://host/prs/43" ].

(** A reporter with a key and a display name of its own; the empty end
    description falls back to the default. *)
Definition cfg_named : BitbucketServerStatusPush.Config :=
  BitbucketServerStatusPush.reconfigService (Some (TStr "ci/build"))
    (Some (TStr "CI")) None (Some (TStr EmptyString)) true.

Definition json_named : Payload :=
  {[ "state" := "SUCCESSFUL";
     "url" := "http://localhost:8080/#builders/79/builds/0";
     "key" := "ci/build";
     "description" := "Build done.";
     "name" := "CI" ]}.

(** [got_revision] is one string for the whole build. *)
Definition b_scalar : Build :=
  mk true (Some SUCCESS) (<[ "got_revision" := PStr "abc123" ]> props0)
    [ss_null; ss_lib].

(** A build without the [buildername] property: [rd0] cannot render the
    default key. *)
Definition b_nobuilder : Build := mk true (Some SUCCESS) ∅ [ss_null; ss_abc].

(** A build whose [pullrequesturl] is a dictionary, and a batch with it. *)
Definition b_dict : Build :=
  mk true (Some SUCCESS) (<[ "pullrequesturl" := got_lib ]> props0) [ss_abc].

Definition batch_dict : list Build :=
  [ pr_build "https://host/prs/42"; b_dict ].

(** A batch with a build that has no [pullrequesturl]. *)
Definition batch_mixed : list Build :=
  [ b_done; pr_build "https://host/prs/42" ].

(** A URL parser that rejects a missing URL. *)
Definition url_path_strict : option string → exn + string :=
  λ u,
    match u with
    | Some s => inr (String.substring 12 (String.length s - 12) s)
    | None => inl (TypeError "expected a URL")
    end.

(** A client that fails to connect. *)
Definition tr_refused : Transport :=
  λ _ _ _, inl (Raised "ConnectionRefusedError").

End Examples.

(** * Properties *)

(** ** Laws of the monad and of the loop *)
Section MonadLaws.
Context {A B C : Type}.

Lemma bind_raises (m : M A) (k : A → M B) h ev e :
  m h = (ev, inl e) → bind m k h = (ev, inl e).
Proof. unfold bind. by intros ->. Qed.

Lemma bind_returns (m : M A) (k : A → M B) h ev a :
  m h = (ev, inr a) →
  bind m k h = (ev ++ events (k a (h ++ ev)), outcome (k a (h ++ ev))).
Proof. unfold bind, events, outcome. intros ->. by destruct (k a (h ++ ev)). Qed.

Lemma bind_ret_l (a : A) (k : A → M B) h : bind (ret a) k h = k a h.
Proof. unfold bind, ret. rewrite app_nil_r. by destruct (k a h). Qed.

Lemma bind_lift_inr (a : A) (k : A → M B) h : bind (lift (inr a)) k h = k a h.
Proof. apply bind_ret_l. Qed.

Lemma bind_ext (m : M A) (k k' : A → M B) h :
  (∀ a h', k a h' = k' a h') → bind m k h = bind m k' h.
Proof.
  intros Hk. unfold bind. destruct (m h) as [ev [e|a]]; [done|].
  by rewrite Hk.
Qed.

Lemma bind_assoc (m : M A) (k : A → M B) (k' : B → M C) h :
  bind (bind m k) k' h = bind m (λ a, bind (k a) k') h.
Proof.
  unfold bind. destruct (m h) as [ev [e|a]]; [done|].
  destruct (k a (h ++ ev)) as [ev' [e|b]]; [done|].
  rewrite <- (assoc_L (++)).
  destruct (k' b (h ++ ev ++ ev')) as [ev'' r].
  by rewrite <- (assoc_L (++)).
Qed.

End MonadLaws.

Section LoopLaws.
Context {A : Type}.
Implicit Types (l : list A) (body : A → M unit).

Lemma for_each_cons x l body h :
  for_each (x :: l) body h = bind (body x) (λ _, for_each l body) h.
Proof. done. Qed.

(** A loop over a concatenation runs the first part, then the second. *)
Lemma for_each_app l1 l2 body h :
  for_each (l1 ++ l2) body h
  = bind (for_each l1 body) (λ _, for_each l2 body) h.
Proof.
  revert h. induction l1 as [|x l1 IH]; intros h; simpl.
  - by rewrite bind_ret_l.
  - rewrite bind_assoc. by apply bind_ext.
Qed.

(** Every event of a loop is an event of one run of its body. *)
Lemma for_each_event l body h e :
  e ∈ events (for_each l body h) →
  ∃ x h', x ∈ l ∧ e ∈ events (body x h').
Proof.
  revert h. induction l as [|x l IH]; intros h; simpl.
  - unfold ret, events; simpl. by intros ?%elem_of_nil.
  - unfold bind. destruct (body x h) as [ev [ex|[]]] eqn:Hx.
    + unfold events; simpl. intros He. exists x, h.
      split; [left|]. by rewrite Hx.
    + destruct (for_each l body (h ++ ev)) as [ev' r] eqn:Hl.
      unfold events; simpl. intros [He|He]%elem_of_app.
      * exists x, h. split; [left|]. by rewrite Hx.
      * destruct (IH (h ++ ev)) as (y & h' & Hy & He').
        { by rewrite Hl. }
        exists y, h'. split; [by right|done].
Qed.

(** When no run of the body raises, the loop returns normally and its
    POSTs are those of the items, in order. *)
Lemma for_each_returns l body (f : A → list (string * Payload)) h :
  (∀ x h', x ∈ l →
     outcome (body x h') = inr tt ∧ posts (events (body x h')) = f x) →
  outcome (for_each l body h) = inr tt
  ∧ posts (events (for_each l body h)) = l ≫= f.
Proof.
  revert h. induction l as [|x l IH]; intros h Hb; simpl.
  - done.
  - destruct (Hb x h) as [Ho Hp]; [left|].
    unfold bind. destruct (body x h) as [ev r] eqn:Hx.
    unfold outcome, events in Ho, Hp; simpl in Ho, Hp. subst r.
    destruct (IH (h ++ ev)) as [Ho' Hp'].
    { intros y h' Hy. apply Hb. by right. }
    destruct (for_each l body (h ++ ev)) as [ev' r'].
    unfold outcome, events in *; simpl in *. split; [done|].
    unfold posts in *. by rewrite omap_app, Hp, Hp'.
Qed.


End LoopLaws.

Lemma bind_omap_singleton {A B C} (f : A → option B) (g : B → C) (l : list A) :
  l ≫= (λ x, match f x with Some y => [g y] | None => [] end)
  = g <$> omap f l.
Proof.
  induction l as [|x l IH]; [done|].
  rewrite bind_cons, IH. simpl. by destruct (f x).
Qed.

Lemma elem_of_posts ev p j : (p, j) ∈ posts ev ↔ EvPost p j ∈ ev.
Proof.
  unfold posts. rewrite list_elem_of_omap. split.
  - intros (e & He & Heq). by destruct e; simplify_eq.
  - intros He. by exists (EvPost p j).
Qed.

(** ** The status reporter *)
Section StatusPushFacts.
Import BitbucketServerStatusPush.
Context (rd : Renderer) (tr : Transport) (self : Config).
Implicit Types (build : Build) (props : gmap string PropVal)
  (status : string) (description : Template) (got_revision : PropVal)
  (sourcestamp : SourceStamp) (h : list Event).

(** Building the payload emits nothing, and its state is the status. *)
Lemma status_payload_spec build props status description h :
  events (status_payload rd self build props status description h) = []
  ∧ ∀ j, outcome (status_payload rd self build props status description h) = inr j →
      j !! "state" = Some status.
Proof.
  unfold status_payload, render, lift, bind, ret, events, outcome.
  repeat case_match; simplify_eq/=; split; try done; intros j' ?; simplify_eq;
    by simplify_map_eq.
Qed.

Lemma status_payload_history build props status description h h' :
  status_payload rd self build props status description h
  = status_payload rd self build props status description h'.
Proof.
  unfold status_payload, render, lift, bind, ret.
  repeat case_match; by simplify_eq/=.
Qed.

(** The three ways through the body of the loop. *)
Lemma send_sourcestamp_raises build props status description got_revision
    sourcestamp h e :
  resolve_sha got_revision sourcestamp = inl e →
  send_sourcestamp rd tr self build props status description got_revision
    sourcestamp h = ([], inl e).
Proof. unfold send_sourcestamp, lift, bind. by intros ->. Qed.

Lemma send_sourcestamp_unresolved build props status description got_revision
    sourcestamp h :
  resolve_sha got_revision sourcestamp = inr None →
  send_sourcestamp rd tr self build props status description got_revision
    sourcestamp h = ([EvLog Error "Unable to get the commit hash" []], inr tt).
Proof. unfold send_sourcestamp, lift, bind. by intros ->. Qed.

Lemma send_sourcestamp_resolved build props status description got_revision
    sourcestamp h sha j resp :
  resolve_sha got_revision sourcestamp = inr (Some sha) →
  outcome (status_payload rd self build props status description h) = inr j →
  tr h (STATUS_API_URL sha) j = inr resp →
  send_sourcestamp rd tr self build props status description got_revision
    sourcestamp h
  = (EvPost (STATUS_API_URL sha) j ::
       (if bool_decide (code resp = HTTP_PROCESSED)
        then if verbose self
             then [EvLog Info STATUS_SENT_FMT
                     [("status", LStr status); ("sha", LStr sha)]]
             else []
        else [EvLog Error
                "{code}: Unable to send Bitbucket Server status: {content}"
                [("code", LInt (code resp)); ("content", LStr (content resp))]]),
     inr tt).
Proof.
  intros Hsha Hj Htr.
  destruct (status_payload_spec build props status description h) as [Hev _].
  unfold send_sourcestamp, lift, bind, http_post. rewrite Hsha, app_nil_r.
  destruct (status_payload _ _ _ _ _ _ _) as [ev r] eqn:Hp.
  unfold events, outcome in *; simpl in *. subst ev r.
  rewrite app_nil_r, Htr.
  unfold log_info, log_error, emit, ret.
  by repeat case_match; simplify_eq/=.
Qed.

(** A run of the body issues at most one POST: to the endpoint of the
    resolved commit, with the status as its state. *)
Lemma send_sourcestamp_posts build props status description got_revision
    sourcestamp h p j :
  (p, j) ∈ posts (events (send_sourcestamp rd tr self build props status
                            description got_revision sourcestamp h)) →
  ∃ sha, resolve_sha got_revision sourcestamp = inr (Some sha)
         ∧ p = STATUS_API_URL sha
         ∧ j !! "state" = Some status
         ∧ posts (events (send_sourcestamp rd tr self build props status
                            description got_revision sourcestamp h))
           = [(p, j)].
Proof.
  destruct (status_payload_spec build props status description h) as [Hev Hst].
  unfold send_sourcestamp, lift, bind, http_post.
  destruct (resolve_sha got_revision sourcestamp) as [e|[sha|]] eqn:Hsha.
  - by intros ?%elem_of_nil.
  - rewrite app_nil_r.
    destruct (status_payload _ _ _ _ _ _ _) as [ev [e|j']] eqn:Hp;
      unfold events, outcome in *; simpl in *; subst ev.
    { by intros ?%elem_of_nil. }
    specialize (Hst j' eq_refl).
    unfold log_info, log_error, emit, ret, posts.
    repeat case_match; simplify_eq/=;
      intros Hin; apply list_elem_of_singleton in Hin; simplify_eq;
      by exists sha.
  - unfold log_error, emit, posts. simpl. by intros ?%elem_of_nil.
Qed.

(** With a resolved commit and a payload, the POST is issued whatever the
    client then does. *)
Lemma send_sourcestamp_posts_resolved build props status description
    got_revision sourcestamp h sha j :
  resolve_sha got_revision sourcestamp = inr (Some sha) →
  outcome (status_payload rd self build props status description h) = inr j →
  posts (events (send_sourcestamp rd tr self build props status description
                   got_revision sourcestamp h))
  = [(STATUS_API_URL sha, j)].
Proof.
  intros Hsha Hj.
  destruct (status_payload_spec build props status description h) as [Hev _].
  unfold send_sourcestamp, lift, bind, http_post. rewrite Hsha, app_nil_r.
  destruct (status_payload _ _ _ _ _ _ _) as [ev r] eqn:Hp.
  unfold events, outcome in *; simpl in *. subst ev r.
  unfold log_info, log_error, emit, ret, posts.
  by repeat case_match; simplify_eq/=.
Qed.

(** With a renderer that returns, the payload is built. *)
Lemma status_payload_total build props status description
    (rendered : Template → string) :
  (∀ t, rd props t = inr (rendered t)) →
  ∃ j, ∀ h,
    status_payload rd self build props status description h = ([], inr j).
Proof.
  intros Hrd. unfold status_payload, render, lift, bind, ret.
  destruct (truthy description), (statusName self) as [n|];
    try destruct (truthy n); rewrite ?Hrd; simpl; rewrite ?Hrd;
    eexists; intros h; reflexivity.
Qed.

(** [send] over a concatenation of source stamps. *)
Lemma send_app build l1 l2 h :
  sourcestamps (buildset build) = l1 ++ l2 →
  send rd tr self build h
  = bind (send rd tr self (with_sourcestamps build l1))
         (λ _, send rd tr self (with_sourcestamps build l2)) h.
Proof.
  intros Hl. unfold send. simpl. rewrite Hl.
  destruct (complete build); apply for_each_app.
Qed.

(** When nothing raises, [send] returns normally, and its POSTs are one
    per source stamp with a resolved commit, in order, whatever the
    responses of the client. *)
Lemma send_returns build h (rendered : Template → string)
    (respond : list Event → string → Payload → Response)
    (sha_of : SourceStamp → option string) :
  (∀ t, rd (properties build) t = inr (rendered t)) →
  (∀ h' p j, tr h' p j = inr (respond h' p j)) →
  (∀ ss, ss ∈ sourcestamps (buildset build) →
     resolve_sha
       (Properties.getProperty (properties build) "got_revision" PNone) ss
     = inr (sha_of ss)) →
  outcome (send rd tr self build h) = inr tt
  ∧ ∃ j, posts (events (send rd tr self build h))
         = (λ sha, (STATUS_API_URL sha, j))
             <$> omap sha_of (sourcestamps (buildset build)).
Proof.
  intros Hrd Htr Hres. unfold send, Properties.fromDict.
  set (gr := Properties.getProperty (properties build) "got_revision" PNone)
    in *.
  destruct (if complete build
            then (if bool_decide (results build = Some SUCCESS)
                  then SUCCESSFUL else FAILED, endDescription self)
            else (INPROGRESS, startDescription self))
    as [status description].
  destruct (status_payload_total build (properties build) status description
              rendered Hrd) as [j Hj].
  destruct (for_each_returns (sourcestamps (buildset build))
              (send_sourcestamp rd tr self build (properties build) status
                 description gr)
              (λ ss, match sha_of ss with
                     | Some sha => [(STATUS_API_URL sha, j)]
                     | None => []
                     end) h) as [Ho Hp].
  - intros ss h' Hss. specialize (Hres ss Hss).
    destruct (sha_of ss) as [sha|] eqn:Hsha.
    + erewrite send_sourcestamp_resolved; [| done | by rewrite Hj | apply Htr].
      split; [done|]. unfold posts, events; simpl.
      by repeat case_match.
    + by erewrite send_sourcestamp_unresolved.
  - split; [done|]. exists j. by rewrite Hp, bind_omap_singleton.
Qed.

End StatusPushFacts.

(** ** The comment reporter *)
Section PRCommentPushFacts.
Import BitbucketServerPRCommentPush.
Context (url_path : option string → exn + string) (tr : Transport)
  (self : Config).
Implicit Types (builds : list Build) (body : string) (h : list Event)
  (pr_url : option string).

(** The set built by the first loop, when every value can be hashed. *)
Lemma collect_pr_urls_spec builds (url_of : Build → option string)
    (acc : gset (option string)) :
  (∀ b, b ∈ builds →
     hashable (Properties.getProperty (properties b) "pullrequesturl" PNone)
     = inr (url_of b)) →
  collect_pr_urls builds acc = inr (list_to_set (url_of <$> builds) ∪ acc).
Proof.
  revert acc. induction builds as [|b builds IH]; intros acc Hh; simpl.
  - by rewrite (left_id_L ∅ (∪)).
  - unfold Properties.fromDict. rewrite (Hh b) by left.
    rewrite IH by (intros b' Hb'; apply Hh; by right).
    f_equal. rewrite (assoc_L (∪)).
    by rewrite (comm_L (∪) (list_to_set (url_of <$> builds)) {[ url_of b ]}).
Qed.

Lemma elements_list_to_set_remove_dups (l : list (option string)) :
  elements (list_to_set (C:=gset (option string)) l) ≡ₚ remove_dups l.
Proof.
  apply NoDup_Permutation.
  - apply NoDup_elements.
  - apply NoDup_remove_dups.
  - intros x. by rewrite elem_of_elements, elem_of_list_to_set,
      elem_of_remove_dups.
Qed.

Lemma length_remove_dups_le {A} `{EqDecision A} (l : list A) :
  (length (remove_dups l) ≤ length l)%nat.
Proof.
  induction l as [|x l IH]; simpl; [done|].
  case_match; simpl; lia.
Qed.

(** The body of the second loop, when the URL parses and the client
    answers. *)
Lemma send_comment_spec body pr_url h path resp :
  url_path pr_url = inr path →
  tr h (COMMENT_API_URL path) {[ "text" := body ]} = inr resp →
  send_comment url_path tr self body pr_url h
  = (EvPost (COMMENT_API_URL path) {[ "text" := body ]} ::
       (if bool_decide (code resp = HTTP_CREATED)
        then if verbose self
             then [EvLog Info "{comment} sent to {url}"
                     [("comment", LStr body);
                      ("url", match pr_url with
                              | Some u => LStr u
                              | None => LNone
                              end)]]
             else []
        else [EvLog Error "{code}: Unable to send a comment: {content}"
                [("code", LInt (code resp)); ("content", LStr (content resp))]]),
     inr tt).
Proof.
  intros Hu Htr. unfold send_comment, lift, bind, http_post.
  rewrite Hu, app_nil_r, Htr. unfold log_info, log_error, emit, ret.
  by repeat case_match; simplify_eq/=.
Qed.

(** When nothing raises, [sendMessage] returns normally, and its POSTs
    are one per element of the set of URLs. *)
Lemma sendMessage_returns body builds h (url_of : Build → option string)
    (path_of : option string → string)
    (respond : list Event → string → Payload → Response) :
  (∀ b, b ∈ builds →
     hashable (Properties.getProperty (properties b) "pullrequesturl" PNone)
     = inr (url_of b)) →
  (∀ u, url_path u = inr (path_of u)) →
  (∀ h' p j, tr h' p j = inr (respond h' p j)) →
  outcome (sendMessage url_path tr self body (Some builds) h) = inr tt
  ∧ posts (events (sendMessage url_path tr self body (Some builds) h))
    = (λ u, (COMMENT_API_URL (path_of u), {[ "text" := body ]}))
        <$> elements (list_to_set (C:=gset (option string)) (url_of <$> builds)).
Proof.
  intros Hh Hu Htr. unfold sendMessage.
  rewrite bind_lift_inr, (collect_pr_urls_spec builds url_of ∅ Hh).
  rewrite bind_lift_inr, (right_id_L ∅ (∪)).
  set (urls := elements _).
  destruct (for_each_returns urls (send_comment url_path tr self body)
              (λ u, [(COMMENT_API_URL (path_of u), {[ "text" := body ]})]) h)
    as [Ho Hp].
  - intros u h' _. erewrite send_comment_spec; [|apply Hu|apply Htr].
    split; [done|]. unfold posts, events; simpl. by repeat case_match.
  - destruct (for_each _ _ _) as [ev r]. unfold outcome, events in *.
    simpl in *. split; [done|]. rewrite Hp. clear.
    induction urls as [|u urls IH]; [done|]. by rewrite bind_cons, IH.
Qed.

End PRCommentPushFacts.

(** ** Claims on the status reporter *)
Import BitbucketServerStatusPush.

(** C1. Every status payload emitted by [send] for a build has state
    SUCCESSFUL when the build is complete with results SUCCESS, FAILED when
    it is complete with any other results, and INPROGRESS when it is not
    complete. *)
Theorem send_state (rd : Renderer) (tr : Transport) (self : Config)
    (build : Build) (h : list Event) (path : string) (json : Payload) :
  (path, json) ∈ posts (events (send rd tr self build h)) →
  (complete build = true → results build = Some SUCCESS →
     json !! "state" = Some "SUCCESSFUL")
  ∧ (complete build = true → results build ≠ Some SUCCESS →
     json !! "state" = Some "FAILED")
  ∧ (complete build = false → json !! "state" = Some "INPROGRESS").
Proof.
  intros Hin. apply elem_of_posts in Hin. unfold send in Hin.
  destruct (complete build) eqn:Hc;
    apply for_each_event in Hin as (ss & h' & _ & Hin);
    apply elem_of_posts, send_sourcestamp_posts in Hin
      as (sha & _ & _ & Hst & _);
    (split; [|split]); intros; try done; by case_bool_decide.
Qed.

Lemma send_state_witness :
  (STATUS_API_URL "abc123", Examples.json_done)
    ∈ posts (events (send Examples.rd0 Examples.tr_ok Examples.cfg0
                       Examples.b_done []))
  ∧ Examples.json_done !! "state" = Some "SUCCESSFUL".
Proof.
  assert (Hin : (STATUS_API_URL "abc123", Examples.json_done)
    ∈ posts (events (send Examples.rd0 Examples.tr_ok Examples.cfg0
                       Examples.b_done []))).
  { vm_compute. left. }
  split; [exact Hin|].
  destruct (send_state _ _ _ _ _ _ _ Hin) as (Hs & _ & _).
  apply Hs; reflexivity.
Defined.

(** C2. A source stamp with a revision is posted to the endpoint of that
    very revision: the revision is the resolved commit hash, every POST of
    the source stamp goes to its endpoint (and one does as soon as the
    payload is built), and the value of [got_revision] makes no difference. *)
Theorem send_revision_verbatim (rd : Renderer) (tr : Transport) (self : Config)
    (build : Build) (props : gmap string PropVal) (status : string)
    (description : Template) (got_revision : PropVal)
    (sourcestamp : SourceStamp) (r : string) :
  revision sourcestamp = Some r →
  resolve_sha got_revision sourcestamp = inr (Some r)
  ∧ (∀ h p j,
       (p, j) ∈ posts (events (send_sourcestamp rd tr self build props status
                                 description got_revision sourcestamp h)) →
       p = STATUS_API_URL r)
  ∧ (∀ h j,
       outcome (status_payload rd self build props status description h)
       = inr j →
       posts (events (send_sourcestamp rd tr self build props status
                        description got_revision sourcestamp h))
       = [(STATUS_API_URL r, j)])
  ∧ (∀ got_revision' h,
       send_sourcestamp rd tr self build props status description
         got_revision' sourcestamp h
       = send_sourcestamp rd tr self build props status description
           got_revision sourcestamp h).
Proof.
  intros Hrev.
  assert (Hres : ∀ g, resolve_sha g sourcestamp = inr (Some r)).
  { intros g. unfold resolve_sha. by rewrite Hrev. }
  split; [apply Hres|]. split; [|split].
  - intros h p j (sha & Hsha & -> & _)%send_sourcestamp_posts.
    rewrite Hres in Hsha. by simplify_eq.
  - intros h j Hj. by apply send_sourcestamp_posts_resolved.
  - intros g h. unfold send_sourcestamp. by rewrite !Hres.
Qed.

Lemma send_revision_verbatim_witness :
  revision Examples.ss_abc = Some "abc123"
  ∧ posts (events (send_sourcestamp Examples.rd0 Examples.tr_ok Examples.cfg0
                     Examples.b_done Examples.props0 SUCCESSFUL
                     (TStr "Build done.") Examples.got_lib Examples.ss_abc []))
    = [(STATUS_API_URL "abc123", Examples.json_done)].
Proof.
  split; [reflexivity|].
  destruct (send_revision_verbatim Examples.rd0 Examples.tr_ok Examples.cfg0
              Examples.b_done Examples.props0 SUCCESSFUL (TStr "Build done.")
              Examples.got_lib Examples.ss_abc "abc123" eq_refl)
    as (_ & _ & Hpost & _).
  apply Hpost. vm_compute. reflexivity.
Defined.

(** C3. For a source stamp without a revision, when [got_revision] is a
    per-codebase mapping that has the codebase of the source stamp, the
    resolved commit hash is the value of the mapping at that codebase, and
    it is the commit the status is posted to. *)
Theorem send_got_revision_mapping (rd : Renderer) (tr : Transport)
    (self : Config) (build : Build) (props : gmap string PropVal)
    (status : string) (description : Template)
    (d : gmap string (option string)) (sourcestamp : SourceStamp)
    (v : option string) :
  revision sourcestamp = None →
  d !! codebase sourcestamp = Some v →
  resolve_sha (PDict d) sourcestamp = inr v
  ∧ (∀ sha h j,
       v = Some sha →
       outcome (status_payload rd self build props status description h)
       = inr j →
       posts (events (send_sourcestamp rd tr self build props status
                        description (PDict d) sourcestamp h))
       = [(STATUS_API_URL sha, j)]).
Proof.
  intros Hrev Hd.
  assert (Hres : resolve_sha (PDict d) sourcestamp = inr v).
  { unfold resolve_sha. by rewrite Hrev, Hd. }
  split; [done|]. intros sha h j -> Hj.
  by apply send_sourcestamp_posts_resolved.
Qed.

Lemma send_got_revision_mapping_witness :
  revision Examples.ss_lib = None
  ∧ resolve_sha Examples.got_lib Examples.ss_lib = inr (Some "fff000")
  ∧ posts (events (send_sourcestamp Examples.rd0 Examples.tr_ok Examples.cfg0
                     Examples.b_multi Examples.props0 INPROGRESS
                     (TStr "Build started.") Examples.got_lib Examples.ss_lib []))
    = [(STATUS_API_URL "fff000", Examples.json_started)].
Proof.
  destruct (send_got_revision_mapping Examples.rd0 Examples.tr_ok
              Examples.cfg0 Examples.b_multi Examples.props0 INPROGRESS
              (TStr "Build started.") {[ "lib" := Some "fff000" ]}
              Examples.ss_lib (Some "fff000") eq_refl)
    as [Hres Hpost].
  { vm_compute. reflexivity. }
  split; [reflexivity|]. split; [exact Hres|].
  apply (Hpost "fff000"); [reflexivity|]. vm_compute. reflexivity.
Defined.

(** C4. A source stamp whose revision is null and for which [got_revision]
    yields null as well makes [send] log the error, issue no POST and raise
    nothing for it, and [send] goes on with the source stamps after it. *)
Theorem send_skips_unresolved (rd : Renderer) (tr : Transport) (self : Config)
    (build : Build) (pre suf : list SourceStamp) (sourcestamp : SourceStamp)
    (h : list Event) :
  sourcestamps (buildset build) = pre ++ sourcestamp :: suf →
  revision sourcestamp = None →
  resolve_sha
    (Properties.getProperty (properties build) "got_revision" PNone)
    sourcestamp = inr None →
  send rd tr self (with_sourcestamps build [sourcestamp]) h
  = ([EvLog Error "Unable to get the commit hash" []], inr tt)
  ∧ send rd tr self build h
    = bind (send rd tr self (with_sourcestamps build pre))
        (λ _, bind (log_error "Unable to get the commit hash" [])
                (λ _, send rd tr self (with_sourcestamps build suf))) h.
Proof.
  intros Hl _ Hres.
  assert (Hone : ∀ h', send rd tr self (with_sourcestamps build [sourcestamp]) h'
                       = log_error "Unable to get the commit hash" [] h').
  { intros h'. unfold send; simpl. unfold Properties.fromDict.
    destruct (complete build); unfold bind;
      by erewrite send_sourcestamp_unresolved. }
  split; [by rewrite Hone|].
  rewrite (send_app _ _ _ _ pre (sourcestamp :: suf)) by done.
  apply bind_ext. intros _ h'.
  rewrite (send_app _ _ _ _ [sourcestamp] suf) by done.
  unfold bind. by rewrite Hone.
Qed.

Lemma send_skips_unresolved_witness :
  send Examples.rd0 Examples.tr_ok Examples.cfg0 Examples.b_skip []
  = ([EvLog Error "Unable to get the commit hash" [];
      EvPost (STATUS_API_URL "abc123")
        (<[ "state" := "FAILED" ]> Examples.json_done)],
     inr tt).
Proof.
  destruct (send_skips_unresolved Examples.rd0 Examples.tr_ok Examples.cfg0
              Examples.b_skip [] [Examples.ss_abc] Examples.ss_null [])
    as [_ ->]; [reflexivity|reflexivity|vm_compute; reflexivity|].
  vm_compute. reflexivity.
Defined.

(** C10. A source stamp without a revision whose codebase is missing from
    the mapping [got_revision] makes the lookup raise [KeyError]: [send]
    ends with an exception, which is that [KeyError] when the source stamps
    before it went through, and emits nothing for this source stamp or for
    those after it. *)
Theorem send_missing_codebase (rd : Renderer) (tr : Transport) (self : Config)
    (build : Build) (pre suf : list SourceStamp) (sourcestamp : SourceStamp)
    (d : gmap string (option string)) (h : list Event) :
  sourcestamps (buildset build) = pre ++ sourcestamp :: suf →
  revision sourcestamp = None →
  properties build !! "got_revision" = Some (PDict d) →
  d !! codebase sourcestamp = None →
  send rd tr self build h
  = bind (send rd tr self (with_sourcestamps build pre))
      (λ _, raise (KeyError (codebase sourcestamp))) h
  ∧ events (send rd tr self build h)
    = events (send rd tr self (with_sourcestamps build pre) h)
  ∧ (∃ e, outcome (send rd tr self build h) = inl e)
  ∧ (outcome (send rd tr self (with_sourcestamps build pre) h) = inr tt →
     outcome (send rd tr self build h) = inl (KeyError (codebase sourcestamp))).
Proof.
  intros Hl Hrev Hgr Hd.
  assert (Heq : send rd tr self build h
    = bind (send rd tr self (with_sourcestamps build pre))
        (λ _, raise (KeyError (codebase sourcestamp))) h).
  { rewrite (send_app _ _ _ _ pre (sourcestamp :: suf)) by done.
    apply bind_ext. intros _ h'.
    unfold send, Properties.fromDict, Properties.getProperty; simpl.
    rewrite Hgr; simpl.
    destruct (complete build); unfold bind;
      (erewrite send_sourcestamp_raises;
        [done | unfold resolve_sha; by rewrite Hrev, Hd]). }
  split; [done|]. rewrite Heq. unfold bind, raise, events, outcome.
  destruct (send rd tr self (with_sourcestamps build pre) h) as [ev [e|[]]];
    simpl; rewrite ?app_nil_r; eauto 6.
  split; [done|]. split; [eauto|]. done.
Qed.

Lemma send_missing_codebase_witness :
  send Examples.rd0 Examples.tr_ok Examples.cfg0 Examples.b_multi []
  = ([EvPost (STATUS_API_URL "fff000") Examples.json_started],
     inl (KeyError "main")).
Proof.
  destruct (send_missing_codebase Examples.rd0 Examples.tr_ok Examples.cfg0
              Examples.b_multi [Examples.ss_lib] [Examples.ss_abc]
              Examples.ss_null {[ "lib" := Some "fff000" ]} [])
    as [-> _]; [reflexivity | reflexivity | vm_compute; reflexivity
               | vm_compute; reflexivity |].
  vm_compute. reflexivity.
Defined.

(** C6, as the code has it.  When nothing raises, [send] issues one POST
    per source stamp whose commit hash resolves to a non-null value, in the
    order of the source stamps, each to the endpoint of its commit and all
    with the same payload; commits are not deduplicated. *)
Theorem send_one_post_per_resolved_sourcestamp (rd : Renderer) (tr : Transport)
    (self : Config) (build : Build) (h : list Event)
    (rendered : Template → string)
    (respond : list Event → string → Payload → Response)
    (sha_of : SourceStamp → option string) :
  (∀ t, rd (properties build) t = inr (rendered t)) →
  (∀ h' p j, tr h' p j = inr (respond h' p j)) →
  (∀ ss, ss ∈ sourcestamps (buildset build) →
     resolve_sha
       (Properties.getProperty (properties build) "got_revision" PNone) ss
     = inr (sha_of ss)) →
  (∃ j, posts (events (send rd tr self build h))
        = (λ sha, (STATUS_API_URL sha, j))
            <$> omap sha_of (sourcestamps (buildset build)))
  ∧ length (posts (events (send rd tr self build h)))
    = length (filter (λ ss, is_Some (sha_of ss))
                (sourcestamps (buildset build))).
Proof.
  intros Hrd Htr Hres.
  destruct (send_returns rd tr self build h rendered respond sha_of
              Hrd Htr Hres) as [_ [j Hp]].
  split; [by exists j|]. rewrite Hp, length_fmap.
  clear. induction (sourcestamps (buildset build)) as [|ss l IH]; [done|].
  destruct (sha_of ss) as [sha|] eqn:Hsha.
  - rewrite filter_cons_True by (by rewrite Hsha).
    simpl. rewrite Hsha. simpl. f_equal. exact IH.
  - rewrite filter_cons_False by (rewrite Hsha; by intros [? ?]).
    simpl. rewrite Hsha. exact IH.
Qed.

Lemma send_one_post_per_resolved_sourcestamp_witness :
  length (posts (events (send Examples.rd0 Examples.tr_ok Examples.cfg0
                           Examples.b_skip [])))
  = 1%nat.
Proof.
  destruct (send_one_post_per_resolved_sourcestamp Examples.rd0 Examples.tr_ok
              Examples.cfg0 Examples.b_skip [] Examples.rendered0
              (Examples.respond_const 204 "ok") revision) as [_ ->].
  - intros [s|f]; reflexivity.
  - reflexivity.
  - intros ss _. unfold resolve_sha. destruct (revision ss); reflexivity.
  - vm_compute. reflexivity.
Defined.

(** C6 fails as stated: two source stamps that resolve to the same commit
    give two POSTs to the endpoint of that commit within one event. *)
Lemma send_same_commit_twice :
  posts (events (send Examples.rd0 Examples.tr_ok Examples.cfg0
                   Examples.b_dup []))
  = [ (STATUS_API_URL "abc123", Examples.json_done);
      (STATUS_API_URL "abc123", Examples.json_done) ].
Proof. vm_compute. reflexivity. Qed.

(** ** Claims on the comment reporter *)

(** When nothing raises on the items of the batch, [sendMessage] returns
    normally, and its POSTs are one per element of the set of URLs. *)
Lemma sendMessage_returns_on_batch
    (url_path : option string → exn + string) (tr : Transport)
    (self : BitbucketServerPRCommentPush.Config) (body : string)
    (builds : list Build) (h : list Event) (url_of : Build → option string)
    (path_of : option string → string) :
  (∀ b, b ∈ builds →
     BitbucketServerPRCommentPush.hashable
       (Properties.getProperty (properties b) "pullrequesturl" PNone)
     = inr (url_of b)) →
  (∀ b, b ∈ builds → url_path (url_of b) = inr (path_of (url_of b))) →
  (∀ b h', b ∈ builds →
     ∃ resp, tr h' (COMMENT_API_URL (path_of (url_of b)))
               {[ "text" := body ]} = inr resp) →
  outcome (BitbucketServerPRCommentPush.sendMessage url_path tr self body
             (Some builds) h) = inr tt
  ∧ posts (events (BitbucketServerPRCommentPush.sendMessage url_path tr self
                     body (Some builds) h))
    = (λ u, (COMMENT_API_URL (path_of u), {[ "text" := body ]}))
        <$> elements (list_to_set (C:=gset (option string)) (url_of <$> builds)).
Proof.
  intros Hh Hu Htr. unfold BitbucketServerPRCommentPush.sendMessage.
  rewrite bind_lift_inr, (collect_pr_urls_spec builds url_of ∅ Hh).
  rewrite bind_lift_inr, (right_id_L ∅ (∪)).
  set (urls := elements _).
  destruct (for_each_returns urls
              (BitbucketServerPRCommentPush.send_comment url_path tr self body)
              (λ u, [(COMMENT_API_URL (path_of u), {[ "text" := body ]})]) h)
    as [Ho Hp].
  - intros u h' Hin. unfold urls in Hin.
    apply elem_of_elements, elem_of_list_to_set, list_elem_of_fmap in Hin
      as (b & -> & Hb).
    destruct (Htr b h' Hb) as [resp Hresp].
    erewrite send_comment_spec; [|by apply Hu|exact Hresp].
    split; [done|]. unfold posts, events; simpl. by repeat case_match.
  - destruct (for_each _ _ _) as [ev r]. unfold outcome, events in *.
    simpl in *. split; [done|]. rewrite Hp. clear.
    induction urls as [|u urls IH]; [done|]. by rewrite bind_cons, IH.
Qed.

(** C7 fails as stated: the two builds of the batch have two distinct
    pull-request URLs, the client raises on the first POST, and the call
    ends with one POST instead of two. *)
Lemma sendMessage_exception_loses_posts :
  length (remove_dups (Examples.url_of0 <$> Examples.batch2)) = 2%nat
  ∧ length (posts (events (BitbucketServerPRCommentPush.sendMessage
                             Examples.url_path0 Examples.tr_first_fails
                             Examples.pr_cfg "Build done."
                             (Some Examples.batch2) [])))
    = 1%nat.
Proof. split; vm_compute; reflexivity. Qed.

(** C7, as the code has it.  When nothing raises during the call (every
    [pullrequesturl] value of the batch can be hashed, the URL parser
    returns the path of every URL of the batch, the client answers every
    request of the call) and the [pullrequesturl] values of the N builds
    take M distinct values, [sendMessage] issues exactly M POSTs, M is at
    most N, and the POSTs are those of the distinct URLs, one each. *)
Theorem sendMessage_one_post_per_url
    (url_path : option string → exn + string) (tr : Transport)
    (self : BitbucketServerPRCommentPush.Config) (body : string)
    (builds : list Build) (h : list Event) (url_of : Build → option string)
    (path_of : option string → string) :
  (∀ b, b ∈ builds →
     BitbucketServerPRCommentPush.hashable
       (Properties.getProperty (properties b) "pullrequesturl" PNone)
     = inr (url_of b)) →
  (∀ b, b ∈ builds → url_path (url_of b) = inr (path_of (url_of b))) →
  (∀ b h', b ∈ builds →
     ∃ resp, tr h' (COMMENT_API_URL (path_of (url_of b)))
               {[ "text" := body ]} = inr resp) →
  length (posts (events (BitbucketServerPRCommentPush.sendMessage
                           url_path tr self body (Some builds) h)))
  = length (remove_dups (url_of <$> builds))
  ∧ (length (remove_dups (url_of <$> builds)) ≤ length builds)%nat
  ∧ posts (events (BitbucketServerPRCommentPush.sendMessage
                     url_path tr self body (Some builds) h))
    ≡ₚ (λ u, (COMMENT_API_URL (path_of u), {[ "text" := body ]}))
         <$> remove_dups (url_of <$> builds).
Proof.
  intros Hh Hu Htr.
  destruct (sendMessage_returns_on_batch url_path tr self body builds h url_of
              path_of Hh Hu Htr) as [_ Hp].
  assert (Hperm : posts (events (BitbucketServerPRCommentPush.sendMessage
                     url_path tr self body (Some builds) h))
    ≡ₚ (λ u, (COMMENT_API_URL (path_of u), {[ "text" := body ]}))
         <$> remove_dups (url_of <$> builds)).
  { rewrite Hp. apply fmap_Permutation, elements_list_to_set_remove_dups. }
  split; [|split; [|done]].
  - by rewrite Hperm, length_fmap.
  - etrans; [apply length_remove_dups_le|]. by rewrite length_fmap.
Qed.

Lemma sendMessage_one_post_per_url_witness :
  length (posts (events (BitbucketServerPRCommentPush.sendMessage
                           Examples.url_path0 Examples.tr_created
                           Examples.pr_cfg "Build done." (Some Examples.batch)
                           [])))
  = 2%nat.
Proof.
  destruct (sendMessage_one_post_per_url Examples.url_path0
              Examples.tr_created Examples.pr_cfg "Build done." Examples.batch
              [] Examples.url_of0 Examples.path_of0) as [-> _].
  - intros b Hb. unfold Examples.batch in Hb.
    repeat (apply elem_of_cons in Hb as [->|Hb]; [vm_compute; reflexivity|]).
    by apply elem_of_nil in Hb.
  - intros b Hb. unfold Examples.batch in Hb.
    repeat (apply elem_of_cons in Hb as [->|Hb]; [vm_compute; reflexivity|]).
    by apply elem_of_nil in Hb.
  - intros b h' _. eexists. reflexivity.
  - vm_compute. reflexivity.
Defined.

(** C8. A build whose properties have no [pullrequesturl] entry is not
    needed by [isMessageNeeded], whatever the base notifier says, so no
    batch selected by [isMessageNeeded] contains it. *)
Theorem isMessageNeeded_without_pullrequesturl
    (base_isMessageNeeded : Build → bool) (build : Build) :
  properties build !! "pullrequesturl" = None →
  BitbucketServerPRCommentPush.isMessageNeeded base_isMessageNeeded build
  = false
  ∧ ∀ builds : list Build,
      build ∉ filter
                (λ b, BitbucketServerPRCommentPush.isMessageNeeded
                        base_isMessageNeeded b)
                builds.
Proof.
  intros Hp.
  assert (Hn : BitbucketServerPRCommentPush.isMessageNeeded
                 base_isMessageNeeded build = false).
  { unfold BitbucketServerPRCommentPush.isMessageNeeded. rewrite Hp.
    rewrite bool_decide_eq_false_2; [done|]. by intros [? ?]. }
  split; [done|]. intros builds [Hb _]%list_elem_of_filter.
  rewrite Hn in Hb. done.
Qed.

Lemma isMessageNeeded_without_pullrequesturl_witness :
  properties Examples.b_done !! "pullrequesturl" = None
  ∧ BitbucketServerPRCommentPush.isMessageNeeded (λ _, true) Examples.b_done
    = false.
Proof.
  assert (Hp : properties Examples.b_done !! "pullrequesturl" = None)
    by (vm_compute; reflexivity).
  split; [exact Hp|].
  exact (proj1 (isMessageNeeded_without_pullrequesturl (λ _, true)
                  Examples.b_done Hp)).
Defined.

(** ** Claims on both reporters *)

(** C9. Once the client has answered a POST of [send], the source stamp
    ends normally: on code 204 nothing is logged but the record at info
    level that [verbose] asks for, on any other code the one record logged
    is an error with the code and the body of the response.  The same holds
    for a POST of [sendMessage] with code 201.  Whatever the codes, [send]
    and [sendMessage] return normally as long as nothing raises. *)
Theorem response_handling (rd : Renderer) (tr : Transport) (self : Config)
    (url_path : option string → exn + string)
    (self' : BitbucketServerPRCommentPush.Config) :
  (∀ build props status description got_revision sourcestamp h sha j resp,
     resolve_sha got_revision sourcestamp = inr (Some sha) →
     outcome (status_payload rd self build props status description h)
     = inr j →
     tr h (STATUS_API_URL sha) j = inr resp →
     outcome (send_sourcestamp rd tr self build props status description
                got_revision sourcestamp h) = inr tt
     ∧ (code resp = 204%Z →
        events (send_sourcestamp rd tr self build props status description
                  got_revision sourcestamp h)
        = EvPost (STATUS_API_URL sha) j ::
            (if verbose self
             then [EvLog Info STATUS_SENT_FMT
                     [("status", LStr status); ("sha", LStr sha)]]
             else []))
     ∧ (code resp ≠ 204%Z →
        events (send_sourcestamp rd tr self build props status description
                  got_revision sourcestamp h)
        = [EvPost (STATUS_API_URL sha) j;
           EvLog Error
             "{code}: Unable to send Bitbucket Server status: {content}"
             [("code", LInt (code resp)); ("content", LStr (content resp))]]))
  ∧ (∀ body pr_url h path resp,
       url_path pr_url = inr path →
       tr h (COMMENT_API_URL path) {[ "text" := body ]} = inr resp →
       outcome (BitbucketServerPRCommentPush.send_comment url_path tr self'
                  body pr_url h) = inr tt
       ∧ (code resp = 201%Z →
          events (BitbucketServerPRCommentPush.send_comment url_path tr self'
                    body pr_url h)
          = EvPost (COMMENT_API_URL path) {[ "text" := body ]} ::
              (if BitbucketServerPRCommentPush.verbose self'
               then [EvLog Info "{comment} sent to {url}"
                       [("comment", LStr body);
                        ("url", match pr_url with
                                | Some u => LStr u
                                | None => LNone
                                end)]]
               else []))
       ∧ (code resp ≠ 201%Z →
          events (BitbucketServerPRCommentPush.send_comment url_path tr self'
                    body pr_url h)
          = [EvPost (COMMENT_API_URL path) {[ "text" := body ]};
             EvLog Error "{code}: Unable to send a comment: {content}"
               [("code", LInt (code resp)); ("content", LStr (content resp))]]))
  ∧ (∀ build h rendered respond sha_of,
       (∀ t, rd (properties build) t = inr (rendered t)) →
       (∀ h' p j, tr h' p j = inr (respond h' p j)) →
       (∀ ss, ss ∈ sourcestamps (buildset build) →
          resolve_sha
            (Properties.getProperty (properties build) "got_revision" PNone)
            ss = inr (sha_of ss)) →
       outcome (send rd tr self build h) = inr tt)
  ∧ (∀ body builds h url_of path_of respond,
       (∀ b, b ∈ builds →
          BitbucketServerPRCommentPush.hashable
            (Properties.getProperty (properties b) "pullrequesturl" PNone)
          = inr (url_of b)) →
       (∀ u, url_path u = inr (path_of u)) →
       (∀ h' p j, tr h' p j = inr (respond h' p j)) →
       outcome (BitbucketServerPRCommentPush.sendMessage url_path tr self'
                  body (Some builds) h) = inr tt).
Proof.
  split; [|split; [|split]].
  - intros build props status description got_revision sourcestamp h sha j
      resp Hsha Hj Htr.
    rewrite (send_sourcestamp_resolved rd tr self build props status
               description got_revision sourcestamp h sha j resp Hsha Hj Htr).
    unfold outcome, events, HTTP_PROCESSED; simpl.
    split; [done|]. split; intros Hc.
    + by rewrite bool_decide_eq_true_2.
    + by rewrite bool_decide_eq_false_2.
  - intros body pr_url h path resp Hu Htr.
    rewrite (send_comment_spec url_path tr self' body pr_url h path resp Hu Htr).
    unfold outcome, events, HTTP_CREATED; simpl.
    split; [done|]. split; intros Hc.
    + by rewrite bool_decide_eq_true_2.
    + by rewrite bool_decide_eq_false_2.
  - intros build h rendered respond sha_of Hrd Htr Hres.
    by destruct (send_returns rd tr self build h rendered respond sha_of
                   Hrd Htr Hres).
  - intros body builds h url_of path_of respond Hh Hu Htr.
    by destruct (sendMessage_returns url_path tr self' body builds h url_of
                   path_of respond Hh Hu Htr).
Qed.

Lemma response_handling_witness :
  send_sourcestamp Examples.rd0 Examples.tr_500 Examples.cfg0 Examples.b_done
    Examples.props0 SUCCESSFUL (TStr "Build done.") PNone Examples.ss_abc []
  = ([EvPost (STATUS_API_URL "abc123") Examples.json_done;
      EvLog Error "{code}: Unable to send Bitbucket Server status: {content}"
        [("code", LInt 500); ("content", LStr "server error")]],
     inr tt)
  ∧ BitbucketServerPRCommentPush.send_comment Examples.url_path0
      Examples.tr_500 Examples.pr_cfg "Build done."
      (Some "https://host/prs/42") []
    = ([EvPost "/rest/api/1.0/prs/42/comments" {[ "text" := "Build done." ]};
        EvLog Error "{code}: Unable to send a comment: {content}"
          [("code", LInt 500); ("content", LStr "server error")]],
       inr tt)
  ∧ outcome (send Examples.rd0 Examples.tr_500 Examples.cfg0 Examples.b_skip [])
    = inr tt
  ∧ outcome (BitbucketServerPRCommentPush.sendMessage Examples.url_path0
               Examples.tr_500 Examples.pr_cfg "Build done."
               (Some Examples.batch) [])
    = inr tt.
Proof.
  destruct (response_handling Examples.rd0 Examples.tr_500 Examples.cfg0
              Examples.url_path0 Examples.pr_cfg)
    as (Hstatus & Hcomment & Hsend & HsendMessage).
  split; [|split; [|split]].
  - destruct (Hstatus Examples.b_done Examples.props0 SUCCESSFUL
                (TStr "Build done.") PNone Examples.ss_abc [] "abc123"
                Examples.json_done (mkResponse 500 "server error"))
      as (Ho & _ & Hev).
    + reflexivity.
    + vm_compute. reflexivity.
    + reflexivity.
    + specialize (Hev ltac:(discriminate)).
      destruct (send_sourcestamp _ _ _ _ _ _ _ _ _ _) as [ev r].
      unfold outcome, events in *; simpl in *. by rewrite Ho, Hev.
  - destruct (Hcomment "Build done." (Some "https://host/prs/42") []
                "/prs/42" (mkResponse 500 "server error"))
      as (Ho & _ & Hev).
    + reflexivity.
    + reflexivity.
    + specialize (Hev ltac:(discriminate)).
      destruct (BitbucketServerPRCommentPush.send_comment _ _ _ _ _ _)
        as [ev r].
      unfold outcome, events in *; simpl in *. by rewrite Ho, Hev.
  - apply (Hsend Examples.b_skip [] Examples.rendered0
             (Examples.respond_const 500 "server error") revision).
    + intros [s|f]; reflexivity.
    + reflexivity.
    + intros ss _. unfold resolve_sha. destruct (revision ss); reflexivity.
  - apply (HsendMessage "Build done." Examples.batch [] Examples.url_of0
             Examples.path_of0 (Examples.respond_const 500 "server error")).
    + intros b Hb. unfold Examples.batch in Hb.
      repeat (apply elem_of_cons in Hb as [->|Hb]; [vm_compute; reflexivity|]).
      by apply elem_of_nil in Hb.
    + intros [u|]; reflexivity.
    + reflexivity.
Defined.




(** * Further properties of the reporters *)

(** ** Loops *)
Section LoopBounds.
Context {A : Type}.
Implicit Types (l : list A) (body : A → M unit).

(** A loop emits at most what its items may emit each. *)
Lemma for_each_length l body (n : nat) h :
  (∀ x h', x ∈ l → (length (events (body x h')) ≤ n)%nat) →
  (length (events (for_each l body h)) ≤ n * length l)%nat.
Proof.
  revert h. induction l as [|x l IH]; intros h Hb; simpl.
  - unfold ret, events; simpl. lia.
  - unfold bind. pose proof (Hb x h ltac:(left)) as Hx.
    destruct (body x h) as [ev [e|[]]]; unfold events in *; simpl in *.
    + lia.
    + specialize (IH (h ++ ev) ltac:(intros y h' Hy; apply Hb; by right)).
      destruct (for_each l body (h ++ ev)) as [ev' r]; simpl in *.
      rewrite length_app. lia.
Qed.

Lemma for_each_posts_length l body (n : nat) h :
  (∀ x h', x ∈ l → (length (posts (events (body x h'))) ≤ n)%nat) →
  (length (posts (events (for_each l body h))) ≤ n * length l)%nat.
Proof.
  revert h. induction l as [|x l IH]; intros h Hb; simpl.
  - unfold ret, events; simpl. lia.
  - unfold bind. pose proof (Hb x h ltac:(left)) as Hx.
    destruct (body x h) as [ev [e|[]]]; unfold events in *; simpl in *.
    + lia.
    + specialize (IH (h ++ ev) ltac:(intros y h' Hy; apply Hb; by right)).
      destruct (for_each l body (h ++ ev)) as [ev' r]; simpl in *.
      unfold posts in *. rewrite omap_app, length_app. lia.
Qed.

(** An item that always raises keeps the loop from returning normally. *)
Lemma for_each_raises l body x h :
  x ∈ l →
  (∀ h', ∃ e, outcome (body x h') = inl e) →
  ∃ e, outcome (for_each l body h) = inl e.
Proof.
  intros Hx Hr. revert h.
  induction l as [|y l IH]; intros h; [by apply elem_of_nil in Hx|].
  simpl. unfold bind.
  destruct (body y h) as [ev [e|[]]] eqn:Hy; [by exists e|].
  apply elem_of_cons in Hx as [->|Hx].
  - destruct (Hr h) as [e He]. rewrite Hy in He. discriminate.
  - destruct (IH Hx (h ++ ev)) as [e He].
    destruct (for_each l body (h ++ ev)) as [ev' r]. by exists e.
Qed.

End LoopBounds.

(** ** More on the status reporter *)
Section StatusPushMore.
Import BitbucketServerStatusPush.
Context (rd : Renderer) (tr : Transport) (self : Config).
Implicit Types (build : Build) (props : gmap string PropVal)
  (status : string) (description : Template) (got_revision : PropVal)
  (sourcestamp : SourceStamp) (h : list Event).

(** The fields of a payload that was built. *)
Lemma status_payload_fields build props status description h j :
  outcome (status_payload rd self build props status description h) = inr j →
  j !! "url" = Some (url build)
  ∧ (∃ k, rd props (key self) = inr k ∧ j !! "key" = Some k)
  ∧ (if truthy description
     then ∃ d, rd props description = inr d ∧ j !! "description" = Some d
     else j !! "description" = None)
  ∧ match statusName self with
    | Some n =>
        if truthy n
        then ∃ s, rd props n = inr s ∧ j !! "name" = Some s
        else j !! "name" = None
    | None => j !! "name" = None
    end
  ∧ (∀ f, is_Some (j !! f) →
       f ∈ ["state"; "url"; "key"; "description"; "name"]).
Proof.
  unfold status_payload, render, lift, bind, ret, outcome.
  destruct (rd props (key self)) as [e|k] eqn:Hk; [done|].
  destruct (truthy description) eqn:Hd;
    [destruct (rd props description) as [e|d] eqn:Hrd; [done|]|];
    (destruct (statusName self) as [n|];
      [destruct (truthy n) eqn:Hn;
        [destruct (rd props n) as [e|s] eqn:Hrn; [done|]|]|]);
    simpl; intros ?; simplify_eq;
    (split; [by simplify_map_eq|]);
    (split; [exists k; by simplify_map_eq|]);
    (split; [first [by simplify_map_eq
                   | eexists; split; [reflexivity|by simplify_map_eq]]|]);
    (split; [first [by simplify_map_eq
                   | eexists; split; [reflexivity|by simplify_map_eq]]|]);
    intros f [x Hx];
    repeat (apply lookup_insert_Some in Hx as [[<- _]|[_ Hx]];
            [set_solver|]);
    apply lookup_singleton_Some in Hx as [<- _]; set_solver.
Qed.

(** Every event of a run of the loop body, by where it comes from. *)
Lemma send_sourcestamp_event build props status description got_revision
    sourcestamp h e :
  e ∈ events (send_sourcestamp rd tr self build props status description
                got_revision sourcestamp h) →
  (resolve_sha got_revision sourcestamp = inr None
   ∧ e = EvLog Error "Unable to get the commit hash" [])
  ∨ ∃ sha j,
      resolve_sha got_revision sourcestamp = inr (Some sha)
      ∧ outcome (status_payload rd self build props status description h)
        = inr j
      ∧ (e = EvPost (STATUS_API_URL sha) j
         ∨ ∃ resp,
             tr h (STATUS_API_URL sha) j = inr resp
             ∧ ((code resp = HTTP_PROCESSED ∧ verbose self = true
                 ∧ e = EvLog Info STATUS_SENT_FMT
                         [("status", LStr status); ("sha", LStr sha)])
                ∨ (code resp ≠ HTTP_PROCESSED
                   ∧ e = EvLog Error
                           "{code}: Unable to send Bitbucket Server status: {content}"
                           [("code", LInt (code resp));
                            ("content", LStr (content resp))]))).
Proof.
  destruct (status_payload_spec rd self build props status description h)
    as [Hev _].
  unfold send_sourcestamp, lift, bind, http_post.
  destruct (resolve_sha got_revision sourcestamp) as [ex|[sha|]] eqn:Hsha.
  - unfold events; simpl. by intros ?%elem_of_nil.
  - rewrite app_nil_r.
    destruct (status_payload _ _ _ _ _ _ _) as [ev [ex|j]] eqn:Hp;
      unfold events, outcome in *; simpl in *; subst ev.
    { by intros ?%elem_of_nil. }
    rewrite app_nil_r. intros He. right. exists sha, j.
    split; [done|]. split; [done|].
    destruct (tr h (STATUS_API_URL sha) j) as [ex|resp] eqn:Htr; simpl in He.
    { apply list_elem_of_singleton in He. by left. }
    unfold log_info, log_error, emit, ret in He.
    case_bool_decide; [destruct (verbose self) eqn:Hv|]; simpl in He;
      repeat (apply elem_of_cons in He as [->|He]; [by eauto 10|]);
      by apply elem_of_nil in He.
  - unfold log_error, emit, events; simpl.
    intros ->%list_elem_of_singleton. by left.
Qed.

(** Every event of [send] is an event of a run of the loop body on one
    of the source stamps of the build. *)
Lemma send_event build h e :
  e ∈ events (send rd tr self build h) →
  ∃ ss h',
    ss ∈ sourcestamps (buildset build)
    ∧ e ∈ events
            (send_sourcestamp rd tr self build (properties build)
               (if complete build
                then if bool_decide (results build = Some SUCCESS)
                     then SUCCESSFUL else FAILED
                else INPROGRESS)
               (if complete build
                then endDescription self else startDescription self)
               (Properties.getProperty (properties build) "got_revision" PNone)
               ss h').
Proof.
  unfold send, Properties.fromDict.
  destruct (complete build); intros (ss & h' & Hss & He)%for_each_event;
    by exists ss, h'.
Qed.

(** The payload of every POST of [send] is one that [status_payload]
    built for the build. *)
Lemma send_post_payload build h path json :
  (path, json) ∈ posts (events (send rd tr self build h)) →
  ∃ ss sha h',
    ss ∈ sourcestamps (buildset build)
    ∧ resolve_sha
        (Properties.getProperty (properties build) "got_revision" PNone) ss
      = inr (Some sha)
    ∧ path = STATUS_API_URL sha
    ∧ outcome
        (status_payload rd self build (properties build)
           (if complete build
            then if bool_decide (results build = Some SUCCESS)
                 then SUCCESSFUL else FAILED
            else INPROGRESS)
           (if complete build
            then endDescription self else startDescription self) h')
      = inr json.
Proof.
  intros (ss & h' & Hss & He)%elem_of_posts%send_event.
  apply send_sourcestamp_event in He
    as [[_ ?]|(sha & j & Hsha & Hj & [?|(resp & _ & [(_ & _ & ?)|[_ ?]])])];
    simplify_eq.
  by exists ss, sha, h'.
Qed.

(** A run of the loop body emits at most a POST and a log record. *)
Lemma send_sourcestamp_length build props status description got_revision
    sourcestamp h :
  (length (events (send_sourcestamp rd tr self build props status description
                     got_revision sourcestamp h)) ≤ 2)%nat
  ∧ (length (posts (events (send_sourcestamp rd tr self build props status
                              description got_revision sourcestamp h)))
     ≤ 1)%nat.
Proof.
  destruct (status_payload_spec rd self build props status description h)
    as [Hev _].
  unfold send_sourcestamp, lift, bind, http_post.
  destruct (resolve_sha got_revision sourcestamp) as [ex|[sha|]].
  - unfold events; simpl. lia.
  - rewrite app_nil_r.
    destruct (status_payload _ _ _ _ _ _ _) as [ev [ex|j]];
      unfold events in *; simpl in *; subst ev; simpl; [lia|].
    unfold log_info, log_error, emit, ret.
    repeat case_match; simplify_eq/=; lia.
  - unfold log_error, emit, events; simpl. lia.
Qed.

End StatusPushMore.

Lemma or_default_truthy (a : option Template) (b : Template) :
  truthy b = true → truthy (or_default a b) = true.
Proof.
  intros Hb. unfold or_default. destruct a as [t|]; [|done].
  by destruct (truthy t) eqn:Ht.
Qed.

(** ** Further properties of the status reporter *)

(** X1. Every payload posted by [send] carries the URL of the build under
    [url] and the rendered key of the reporter under [key], and has no
    field besides [state], [url], [key], [description] and [name]. *)
Theorem send_payload_fields (rd : Renderer) (tr : Transport) (self : Config)
    (build : Build) (h : list Event) (path : string) (json : Payload) :
  (path, json) ∈ posts (events (send rd tr self build h)) →
  json !! "url" = Some (url build)
  ∧ (∃ k, rd (properties build) (key self) = inr k ∧ json !! "key" = Some k)
  ∧ (∀ f, is_Some (json !! f) →
       f ∈ ["state"; "url"; "key"; "description"; "name"]).
Proof.
  intros (ss & sha & h' & _ & _ & _ & Hj)%send_post_payload.
  apply (status_payload_fields rd tr) in Hj as (Hurl & Hkey & _ & _ & Hdom).
  exact (conj Hurl (conj Hkey Hdom)).
Qed.

Lemma send_payload_fields_witness :
  (STATUS_API_URL "abc123", Examples.json_named)
    ∈ posts (events (send Examples.rd0 Examples.tr_ok Examples.cfg_named
                       Examples.b_done []))
  ∧ Examples.json_named !! "url"
    = Some "http://localhost:8080/#builders/79/builds/0"
  ∧ Examples.json_named !! "key" = Some "ci/build".
Proof.
  assert (Hin : (STATUS_API_URL "abc123", Examples.json_named)
    ∈ posts (events (send Examples.rd0 Examples.tr_ok Examples.cfg_named
                       Examples.b_done []))).
  { vm_compute. left. }
  split; [exact Hin|].
  destruct (send_payload_fields _ _ _ _ _ _ _ Hin) as (Hurl & [k [Hk Hkey]] & _).
  split; [exact Hurl|]. rewrite Hkey. vm_compute in Hk. congruence.
Defined.

(** X2. The optional fields of a posted payload follow the configuration:
    [description] is the rendered description of the state of the build
    (end or start) when that renderable is truthy and is absent otherwise;
    [name] is the rendered [statusName] when one is configured and truthy
    and is absent otherwise. *)
Theorem send_payload_optional_fields (rd : Renderer) (tr : Transport)
    (self : Config) (build : Build) (h : list Event) (path : string)
    (json : Payload) :
  (path, json) ∈ posts (events (send rd tr self build h)) →
  (if truthy (if complete build
              then endDescription self else startDescription self)
   then ∃ d, rd (properties build)
               (if complete build
                then endDescription self else startDescription self) = inr d
             ∧ json !! "description" = Some d
   else json !! "description" = None)
  ∧ match statusName self with
    | Some n =>
        if truthy n
        then ∃ s, rd (properties build) n = inr s ∧ json !! "name" = Some s
        else json !! "name" = None
    | None => json !! "name" = None
    end.
Proof.
  intros (ss & sha & h' & _ & _ & _ & Hj)%send_post_payload.
  apply (status_payload_fields rd tr) in Hj as (_ & _ & Hdesc & Hname & _).
  exact (conj Hdesc Hname).
Qed.

Lemma send_payload_optional_fields_witness :
  Examples.json_done !! "description" = Some "Build done."
  ∧ Examples.json_done !! "name" = None.
Proof.
  assert (Hin : (STATUS_API_URL "abc123", Examples.json_done)
    ∈ posts (events (send Examples.rd0 Examples.tr_ok Examples.cfg0
                       Examples.b_done []))).
  { vm_compute. left. }
  destruct (send_payload_optional_fields _ _ _ _ _ _ _ Hin)
    as [Hdesc Hname].
  split; [|exact Hname].
  destruct Hdesc as (d & Hd & ->). vm_compute in Hd. congruence.
Defined.

(** X3. A reporter configured by [reconfigService] always sends a
    description: every posted payload has the [description] field,
    rendered from the end description of a complete build and from the
    start description otherwise, with the defaults in place of arguments
    that are missing or empty. *)
Theorem reconfigService_description (rd : Renderer) (tr : Transport)
    (k n sd ed : option Template) (v : bool) (build : Build)
    (h : list Event) (path : string) (json : Payload) :
  (path, json)
    ∈ posts (events (send rd tr (reconfigService k n sd ed v) build h)) →
  ∃ d, json !! "description" = Some d
       ∧ rd (properties build)
           (if complete build
            then or_default ed (TStr "Build done.")
            else or_default sd (TStr "Build started.")) = inr d.
Proof.
  intros (_ & _ & h' & _ & _ & _ & Hj)%send_post_payload.
  apply (status_payload_fields rd tr) in Hj as (_ & _ & Hdesc & _ & _).
  simpl in Hdesc.
  assert (Ht : truthy (if complete build
                       then or_default ed (TStr "Build done.")
                       else or_default sd (TStr "Build started.")) = true).
  { destruct (complete build); by apply or_default_truthy. }
  rewrite Ht in Hdesc. destruct Hdesc as (d & Hd & Hjd). by exists d.
Qed.

Lemma reconfigService_description_witness :
  Examples.json_named !! "description" = Some "Build done.".
Proof.
  assert (Hin : (STATUS_API_URL "abc123", Examples.json_named)
    ∈ posts (events (send Examples.rd0 Examples.tr_ok
                       (reconfigService (Some (TStr "ci/build"))
                          (Some (TStr "CI")) None (Some (TStr EmptyString))
                          true)
                       Examples.b_done []))).
  { vm_compute. left. }
  destruct (reconfigService_description _ _ _ _ _ _ _ _ _ _ _ Hin)
    as (d & -> & Hd).
  vm_compute in Hd. congruence.
Defined.

(** X4. Whatever is passed to [reconfigService], the key and the two
    descriptions of the reporter are truthy; an argument that is missing
    or the empty string is replaced by its default, and a truthy argument
    is kept. *)
Theorem reconfigService_falls_back (k n sd ed : option Template) (v : bool) :
  (truthy (key (reconfigService k n sd ed v)) = true
   ∧ truthy (startDescription (reconfigService k n sd ed v)) = true
   ∧ truthy (endDescription (reconfigService k n sd ed v)) = true)
  ∧ (k ∈ [None; Some (TStr EmptyString)] →
     key (reconfigService k n sd ed v) = Interpolate "%(prop:buildername)s")
  ∧ (sd ∈ [None; Some (TStr EmptyString)] →
     startDescription (reconfigService k n sd ed v) = TStr "Build started.")
  ∧ (ed ∈ [None; Some (TStr EmptyString)] →
     endDescription (reconfigService k n sd ed v) = TStr "Build done.")
  ∧ (∀ t, truthy t = true →
       key (reconfigService (Some t) n sd ed v) = t
       ∧ startDescription (reconfigService k n (Some t) ed v) = t
       ∧ endDescription (reconfigService k n sd (Some t) v) = t).
Proof.
  split; [|split; [|split; [|split]]].
  - simpl. by rewrite !or_default_truthy.
  - intros Hk. repeat (apply elem_of_cons in Hk as [->|Hk]; [done|]).
    by apply elem_of_nil in Hk.
  - intros Hk. repeat (apply elem_of_cons in Hk as [->|Hk]; [done|]).
    by apply elem_of_nil in Hk.
  - intros Hk. repeat (apply elem_of_cons in Hk as [->|Hk]; [done|]).
    by apply elem_of_nil in Hk.
  - intros t Ht. simpl. by rewrite Ht.
Qed.

Lemma reconfigService_falls_back_witness :
  endDescription Examples.cfg_named = TStr "Build done."
  ∧ key Examples.cfg_named = TStr "ci/build".
Proof.
  destruct (reconfigService_falls_back (Some (TStr "ci/build"))
              (Some (TStr "CI")) None (Some (TStr EmptyString)) true)
    as (_ & _ & _ & Hed & Hkeep).
  split.
  - apply Hed. right. left.
  - apply (Hkeep (TStr "ci/build")). reflexivity.
Defined.

(** X5. [send] posts only to commits of the build: the path of every POST
    is the status endpoint of the commit hash that one of the source
    stamps of the build resolves to. *)
Theorem send_posts_sound (rd : Renderer) (tr : Transport) (self : Config)
    (build : Build) (h : list Event) (path : string) (json : Payload) :
  (path, json) ∈ posts (events (send rd tr self build h)) →
  ∃ ss sha,
    ss ∈ sourcestamps (buildset build)
    ∧ resolve_sha
        (Properties.getProperty (properties build) "got_revision" PNone) ss
      = inr (Some sha)
    ∧ path = STATUS_API_URL sha.
Proof.
  intros (ss & sha & h' & Hss & Hsha & Hp & _)%send_post_payload.
  by exists ss, sha.
Qed.

Lemma send_posts_sound_witness :
  ∃ ss sha,
    ss ∈ [Examples.ss_lib; Examples.ss_null; Examples.ss_abc]
    ∧ resolve_sha Examples.got_lib ss = inr (Some sha)
    ∧ STATUS_API_URL "fff000" = STATUS_API_URL sha.
Proof.
  apply (send_posts_sound Examples.rd0 Examples.tr_ok Examples.cfg0
           Examples.b_multi [] (STATUS_API_URL "fff000")
           Examples.json_started).
  vm_compute. left.
Defined.

(** X6. [send] issues at most one POST per source stamp of the build, and
    emits at most two events (a POST and a log record) per source stamp;
    for a build without source stamps it does nothing. *)
Theorem send_bounds (rd : Renderer) (tr : Transport) (self : Config)
    (build : Build) (h : list Event) :
  (length (posts (events (send rd tr self build h)))
   ≤ length (sourcestamps (buildset build)))%nat
  ∧ (length (events (send rd tr self build h))
     ≤ 2 * length (sourcestamps (buildset build)))%nat
  ∧ (sourcestamps (buildset build) = [] →
     send rd tr self build h = ([], inr tt)).
Proof.
  split; [|split].
  - unfold send. destruct (complete build);
      (etrans; [apply (for_each_posts_length _ _ 1%nat);
                intros; apply send_sourcestamp_length | lia]).
  - unfold send. destruct (complete build);
      apply for_each_length; intros; apply send_sourcestamp_length.
  - intros Hl. unfold send. rewrite Hl. by destruct (complete build).
Qed.

Lemma send_bounds_witness :
  send Examples.rd0 Examples.tr_ok Examples.cfg0
    (with_sourcestamps Examples.b_done []) []
  = ([], inr tt).
Proof.
  apply (send_bounds Examples.rd0 Examples.tr_ok Examples.cfg0
           (with_sourcestamps Examples.b_done []) []).
  reflexivity.
Defined.

(** X7. When [got_revision] is a plain string, no source stamp is skipped
    and no lookup can fail: if the renderer and the client return, [send]
    returns normally and posts once per source stamp, to the revision of
    the source stamp when it has one and to [got_revision] otherwise. *)
Theorem send_scalar_got_revision (rd : Renderer) (tr : Transport)
    (self : Config) (build : Build) (h : list Event) (s : string)
    (rendered : Template → string)
    (respond : list Event → string → Payload → Response) :
  properties build !! "got_revision" = Some (PStr s) →
  (∀ t, rd (properties build) t = inr (rendered t)) →
  (∀ h' p j, tr h' p j = inr (respond h' p j)) →
  outcome (send rd tr self build h) = inr tt
  ∧ ∃ j, posts (events (send rd tr self build h))
         = (λ ss, (STATUS_API_URL (default s (revision ss)), j))
             <$> sourcestamps (buildset build).
Proof.
  intros Hgr Hrd Htr.
  destruct (send_returns rd tr self build h rendered respond
              (λ ss, Some (default s (revision ss))) Hrd Htr) as [Ho [j Hp]].
  { intros ss _. unfold Properties.getProperty, resolve_sha.
    rewrite Hgr. simpl. by destruct (revision ss). }
  split; [done|]. exists j. rewrite Hp. clear.
  induction (sourcestamps (buildset build)) as [|ss l IH]; [done|].
  simpl. f_equal. exact IH.
Qed.

Lemma send_scalar_got_revision_witness :
  ∃ j, posts (events (send Examples.rd0 Examples.tr_ok Examples.cfg0
                        Examples.b_scalar []))
       = [(STATUS_API_URL "abc123", j); (STATUS_API_URL "abc123", j)].
Proof.
  destruct (send_scalar_got_revision Examples.rd0 Examples.tr_ok Examples.cfg0
              Examples.b_scalar [] "abc123" Examples.rendered0
              (Examples.respond_const 204 "ok")) as [_ [j Hj]].
  - vm_compute. reflexivity.
  - intros [s|f]; vm_compute; reflexivity.
  - reflexivity.
  - exists j. exact Hj.
Defined.

(** X8. When the key of the reporter cannot be rendered, [send] issues no
    POST at all: the only events left are the records of the source stamps
    without a commit hash, and [send] raises as soon as the build has a
    source stamp with a resolved commit. *)
Theorem send_unrenderable_key (rd : Renderer) (tr : Transport) (self : Config)
    (build : Build) (h : list Event) (e : exn) :
  rd (properties build) (key self) = inl e →
  posts (events (send rd tr self build h)) = []
  ∧ (∀ ev, ev ∈ events (send rd tr self build h) →
       ev = EvLog Error "Unable to get the commit hash" [])
  ∧ (∀ ss sha,
       ss ∈ sourcestamps (buildset build) →
       resolve_sha
         (Properties.getProperty (properties build) "got_revision" PNone) ss
       = inr (Some sha) →
       ∃ e', outcome (send rd tr self build h) = inl e').
Proof.
  intros Hk.
  assert (Hev : ∀ ev, ev ∈ events (send rd tr self build h) →
                  ev = EvLog Error "Unable to get the commit hash" []).
  { intros ev (ss & h' & _ & He)%send_event.
    apply send_sourcestamp_event in He as [[_ ->]|(sha & j & _ & Hj & _)];
      [done|].
    apply (status_payload_fields rd tr) in Hj as (_ & (k & Hk' & _) & _).
    congruence. }
  split; [|split; [done|]].
  - destruct (posts (events (send rd tr self build h))) as [|[p j] l] eqn:Hp;
      [done|].
    assert (Hin : (p, j) ∈ posts (events (send rd tr self build h)))
      by (rewrite Hp; left).
    apply elem_of_posts, Hev in Hin. discriminate.
  - intros ss sha Hss Hsha. unfold send, Properties.fromDict.
    destruct (complete build);
      (apply (for_each_raises _ _ ss); [done|]; intros h'; exists e;
       unfold send_sourcestamp, status_payload, render, lift, bind, outcome;
       by rewrite Hsha, Hk).
Qed.

Lemma send_unrenderable_key_witness :
  send Examples.rd0 Examples.tr_ok Examples.cfg0 Examples.b_nobuilder []
  = ([EvLog Error "Unable to get the commit hash" []],
     inl (KeyError "buildername")).
Proof.
  destruct (send_unrenderable_key Examples.rd0 Examples.tr_ok Examples.cfg0
              Examples.b_nobuilder [] (KeyError "buildername"))
    as (Hposts & _ & _).
  - vm_compute. reflexivity.
  - vm_compute in Hposts. vm_compute. reflexivity.
Defined.

Lemma send_sourcestamp_client_raises (rd : Renderer) (tr : Transport)
    (self : Config) (build : Build) (props : gmap string PropVal)
    (status : string) (description : Template) (got_revision : PropVal)
    (sourcestamp : SourceStamp) (h : list Event) (sha : string) (j : Payload)
    (e : exn) :
  resolve_sha got_revision sourcestamp = inr (Some sha) →
  outcome (status_payload rd self build props status description h) = inr j →
  tr h (STATUS_API_URL sha) j = inl e →
  send_sourcestamp rd tr self build props status description got_revision
    sourcestamp h
  = ([EvPost (STATUS_API_URL sha) j], inl e).
Proof.
  intros Hsha Hj Htr.
  destruct (status_payload_spec rd self build props status description h)
    as [Hev _].
  unfold send_sourcestamp, lift, bind, http_post. rewrite Hsha, app_nil_r.
  destruct (status_payload _ _ _ _ _ _ _) as [ev r] eqn:Hp.
  unfold events, outcome in *; simpl in *. subst ev r.
  by rewrite app_nil_r, Htr.
Qed.

(** X9. An exception of the HTTP client is not handled by [send]: when
    the client raises on the POST of the first source stamp, [send] ends
    with that exception right after handing over the request, logs
    nothing, and leaves the other source stamps alone. *)
Theorem send_client_exception (rd : Renderer) (tr : Transport) (self : Config)
    (build : Build) (ss : SourceStamp) (rest : list SourceStamp)
    (h : list Event) (sha : string) (j : Payload) (e : exn) :
  sourcestamps (buildset build) = ss :: rest →
  resolve_sha
    (Properties.getProperty (properties build) "got_revision" PNone) ss
  = inr (Some sha) →
  outcome
    (status_payload rd self build (properties build)
       (if complete build
        then if bool_decide (results build = Some SUCCESS)
             then SUCCESSFUL else FAILED
        else INPROGRESS)
       (if complete build then endDescription self else startDescription self)
       h)
  = inr j →
  tr h (STATUS_API_URL sha) j = inl e →
  send rd tr self build h = ([EvPost (STATUS_API_URL sha) j], inl e).
Proof.
  intros Hl Hsha Hj Htr. unfold send, Properties.fromDict. rewrite Hl.
  destruct (complete build); simpl;
    apply bind_raises; by apply send_sourcestamp_client_raises.
Qed.

Lemma send_client_exception_witness :
  send Examples.rd0 Examples.tr_refused Examples.cfg0 Examples.b_done []
  = ([EvPost (STATUS_API_URL "abc123") Examples.json_done],
     inl (Raised "ConnectionRefusedError")).
Proof.
  apply (send_client_exception Examples.rd0 Examples.tr_refused Examples.cfg0
           Examples.b_done Examples.ss_abc [] [] "abc123" Examples.json_done).
  - reflexivity.
  - reflexivity.
  - vm_compute. reflexivity.
  - reflexivity.
Defined.

(** X10. [send] logs for two reasons only.  Every record in its events is
    the error of a source stamp without a commit hash, or follows an
    answer of the client: an info record needs [verbose] and code 204, and
    an error record needs another code and carries that code and the body
    of the answer. *)
Theorem send_log_records (rd : Renderer) (tr : Transport) (self : Config)
    (build : Build) (h : list Event) (lvl : Level) (fmt : string)
    (kwargs : list (string * LogVal)) :
  EvLog lvl fmt kwargs ∈ events (send rd tr self build h) →
  (lvl = Error ∧ fmt = "Unable to get the commit hash" ∧ kwargs = [])
  ∨ ∃ h' p j resp,
      tr h' p j = inr resp
      ∧ ((lvl = Info ∧ verbose self = true ∧ code resp = 204%Z
          ∧ fmt = STATUS_SENT_FMT)
         ∨ (lvl = Error ∧ code resp ≠ 204%Z
            ∧ fmt = "{code}: Unable to send Bitbucket Server status: {content}"
            ∧ kwargs = [("code", LInt (code resp));
                        ("content", LStr (content resp))])).
Proof.
  intros (ss & h' & _ & He)%send_event.
  apply send_sourcestamp_event in He
    as [[_ ?]|(sha & j & _ & _ & [?|(resp & Htr & [(Hc & Hv & ?)|[Hc ?]])])];
    simplify_eq.
  - by left.
  - right. exists h', (STATUS_API_URL sha), j, resp. split; [done|].
    left. done.
  - right. exists h', (STATUS_API_URL sha), j, resp. split; [done|].
    right. done.
Qed.

Lemma send_log_records_witness :
  EvLog Error "{code}: Unable to send Bitbucket Server status: {content}"
    [("code", LInt 500); ("content", LStr "server error")]
    ∈ events (send Examples.rd0 Examples.tr_500 Examples.cfg0
                Examples.b_done [])
  ∧ ∃ h' p j resp,
      Examples.tr_500 h' p j = inr resp ∧ code resp ≠ 204%Z.
Proof.
  assert (Hin : EvLog Error
      "{code}: Unable to send Bitbucket Server status: {content}"
      [("code", LInt 500); ("content", LStr "server error")]
    ∈ events (send Examples.rd0 Examples.tr_500 Examples.cfg0
                Examples.b_done [])).
  { vm_compute. right. left. }
  split; [exact Hin|].
  destruct (send_log_records _ _ _ _ _ _ _ _ Hin)
    as [(_ & Hf & _)|(h' & p & j & resp & Htr & [(Hl & _)|(_ & Hc & _)])];
    [discriminate| discriminate |].
  by exists h', p, j, resp.
Defined.

(** ** More on the comment reporter *)
Section PRCommentPushMore.
Import BitbucketServerPRCommentPush.
Context (url_path : option string → exn + string) (tr : Transport)
  (self : BitbucketServerPRCommentPush.Config).
Implicit Types (builds : list Build) (body : string) (h : list Event)
  (pr_url : option string).

(** Every event of a run of the loop body, by where it comes from. *)
Lemma send_comment_event body pr_url h e :
  e ∈ events (send_comment url_path tr self body pr_url h) →
  ∃ path,
    url_path pr_url = inr path
    ∧ (e = EvPost (COMMENT_API_URL path) {[ "text" := body ]}
       ∨ ∃ resp,
           tr h (COMMENT_API_URL path) {[ "text" := body ]} = inr resp
           ∧ ((code resp = HTTP_CREATED
               ∧ BitbucketServerPRCommentPush.verbose self = true
               ∧ e = EvLog Info "{comment} sent to {url}"
                       [("comment", LStr body);
                        ("url", match pr_url with
                                | Some u => LStr u
                                | None => LNone
                                end)])
              ∨ (code resp ≠ HTTP_CREATED
                 ∧ e = EvLog Error
                         "{code}: Unable to send a comment: {content}"
                         [("code", LInt (code resp));
                          ("content", LStr (content resp))]))).
Proof.
  unfold send_comment, lift, bind, http_post.
  destruct (url_path pr_url) as [ex|path] eqn:Hu.
  { unfold events; simpl. by intros ?%elem_of_nil. }
  rewrite app_nil_r. intros He. exists path. split; [done|].
  destruct (tr h (COMMENT_API_URL path) {[ "text" := body ]})
    as [ex|resp] eqn:Htr; unfold events in He; simpl in He.
  { apply list_elem_of_singleton in He. by left. }
  unfold log_info, log_error, emit, ret in He.
  case_bool_decide;
    [destruct (BitbucketServerPRCommentPush.verbose self) eqn:Hv|];
    simpl in He;
    repeat (apply elem_of_cons in He as [->|He]; [by eauto 10|]);
    by apply elem_of_nil in He.
Qed.

Lemma send_comment_length body pr_url h :
  (length (events (send_comment url_path tr self body pr_url h)) ≤ 2)%nat
  ∧ (length (posts (events (send_comment url_path tr self body pr_url h)))
     ≤ 1)%nat.
Proof.
  unfold send_comment, lift, bind, http_post, log_info, log_error, emit, ret,
    events.
  repeat case_match; simplify_eq/=; lia.
Qed.

(** The set built by the first loop holds values of the builds only. *)
Lemma collect_pr_urls_sound builds (acc urls : gset (option string)) u :
  collect_pr_urls builds acc = inr urls →
  u ∈ urls →
  u ∈ acc
  ∨ ∃ b, b ∈ builds
         ∧ hashable (Properties.getProperty (properties b) "pullrequesturl"
                       PNone) = inr u.
Proof.
  revert acc. induction builds as [|b builds IH]; intros acc Hc Hu; simpl in Hc.
  - simplify_eq. by left.
  - unfold Properties.fromDict in Hc.
    destruct (hashable _) as [ex|v] eqn:Hv; [done|].
    destruct (IH _ Hc Hu) as [[Hin|Hin]%elem_of_union|(b' & Hb' & Hh)].
    + apply elem_of_singleton in Hin as ->. right. exists b. split; [left|done].
    + by left.
    + right. exists b'. split; [by right|done].
Qed.

Lemma collect_pr_urls_size builds (acc urls : gset (option string)) :
  collect_pr_urls builds acc = inr urls →
  (size urls ≤ length builds + size acc)%nat.
Proof.
  revert acc. induction builds as [|b builds IH]; intros acc Hc; simpl in Hc.
  - simplify_eq. simpl. lia.
  - destruct (hashable _) as [ex|v]; [done|].
    apply IH in Hc. simpl.
    pose proof (size_union_alt {[ v ]} acc) as Hs.
    assert (size (acc ∖ {[ v ]}) ≤ size acc)%nat
      by (by apply subseteq_size, subseteq_difference_l).
    rewrite size_singleton in Hs. lia.
Qed.

(** A value that cannot be hashed stops the first loop. *)
Lemma collect_pr_urls_unhashable builds (acc : gset (option string)) b d :
  b ∈ builds →
  properties b !! "pullrequesturl" = Some (PDict d) →
  collect_pr_urls builds acc = inl (TypeError "unhashable type: 'dict'").
Proof.
  intros Hb Hd. revert acc.
  induction builds as [|b' builds IH]; intros acc;
    [by apply elem_of_nil in Hb|].
  simpl. unfold Properties.fromDict, Properties.getProperty.
  apply elem_of_cons in Hb as [<-|Hb].
  - by rewrite Hd.
  - destruct (hashable _) as [ex|v] eqn:Hv; [|by apply IH].
    unfold hashable in Hv. by repeat case_match; simplify_eq.
Qed.

(** Every event of [sendMessage] is an event of a run of the loop body on
    one of the collected URLs. *)
Lemma sendMessage_event body builds h e :
  e ∈ events (sendMessage url_path tr self body (Some builds) h) →
  ∃ urls u h',
    collect_pr_urls builds ∅ = inr urls
    ∧ u ∈ urls
    ∧ e ∈ events (send_comment url_path tr self body u h').
Proof.
  unfold sendMessage. rewrite bind_lift_inr.
  destruct (collect_pr_urls builds ∅) as [ex|urls] eqn:Hc.
  { unfold bind, lift, events; simpl. by intros ?%elem_of_nil. }
  rewrite bind_lift_inr.
  intros (u & h' & Hu & He)%for_each_event.
  exists urls, u, h'. by rewrite elem_of_elements in Hu.
Qed.

End PRCommentPushMore.

(** ** Further properties of the comment reporter *)

(** X11. [sendMessage] posts only the message, and only to pull requests
    of the batch: the body of every POST is [{text: body}] and its path is
    the comment endpoint of the path of the [pullrequesturl] value of one
    of the builds. *)
Theorem sendMessage_posts_sound (url_path : option string → exn + string)
    (tr : Transport) (self : BitbucketServerPRCommentPush.Config)
    (body : string) (builds : list Build) (h : list Event) (path : string)
    (json : Payload) :
  (path, json)
    ∈ posts (events (BitbucketServerPRCommentPush.sendMessage url_path tr self
                       body (Some builds) h)) →
  json = {[ "text" := body ]}
  ∧ ∃ b u p,
      b ∈ builds
      ∧ BitbucketServerPRCommentPush.hashable
          (Properties.getProperty (properties b) "pullrequesturl" PNone)
        = inr u
      ∧ url_path u = inr p
      ∧ path = COMMENT_API_URL p.
Proof.
  intros (urls & u & h' & Hc & Hu & He)%elem_of_posts%sendMessage_event.
  apply send_comment_event in He
    as (p & Hp & [?|(resp & _ & [(_ & _ & ?)|[_ ?]])]); simplify_eq.
  split; [done|].
  destruct (collect_pr_urls_sound builds ∅ urls u Hc Hu)
    as [Hin|(b & Hb & Hh)]; [by apply not_elem_of_empty in Hin|].
  by exists b, u, p.
Qed.

Lemma sendMessage_posts_sound_witness :
  ∃ b u p,
    b ∈ Examples.batch
    ∧ BitbucketServerPRCommentPush.hashable
        (Properties.getProperty (properties b) "pullrequesturl" PNone)
      = inr u
    ∧ Examples.url_path0 u = inr p
    ∧ "/rest/api/1.0/prs/42/comments" = COMMENT_API_URL p.
Proof.
  apply (sendMessage_posts_sound Examples.url_path0 Examples.tr_created
           Examples.pr_cfg "Build done." Examples.batch []
           "/rest/api/1.0/prs/42/comments" {[ "text" := "Build done." ]}).
  vm_compute. right. left.
Defined.

(** X12. [sendMessage] logs only after an answer of the client: an info
    record needs [verbose] and code 201, and an error record needs another
    code and carries that code and the body of the answer. *)
Theorem sendMessage_log_records (url_path : option string → exn + string)
    (tr : Transport) (self : BitbucketServerPRCommentPush.Config)
    (body : string) (builds : list Build) (h : list Event) (lvl : Level)
    (fmt : string) (kwargs : list (string * LogVal)) :
  EvLog lvl fmt kwargs
    ∈ events (BitbucketServerPRCommentPush.sendMessage url_path tr self body
                (Some builds) h) →
  ∃ h' p resp,
    tr h' p {[ "text" := body ]} = inr resp
    ∧ ((lvl = Info ∧ BitbucketServerPRCommentPush.verbose self = true
        ∧ code resp = 201%Z ∧ fmt = "{comment} sent to {url}")
       ∨ (lvl = Error ∧ code resp ≠ 201%Z
          ∧ fmt = "{code}: Unable to send a comment: {content}"
          ∧ kwargs = [("code", LInt (code resp));
                      ("content", LStr (content resp))])).
Proof.
  intros (urls & u & h' & _ & _ & He)%sendMessage_event.
  apply send_comment_event in He
    as (p & _ & [?|(resp & Htr & [(Hc & Hv & ?)|[Hc ?]])]); simplify_eq.
  - exists h', (COMMENT_API_URL p), resp. split; [done|]. by left.
  - exists h', (COMMENT_API_URL p), resp. split; [done|]. by right.
Qed.

Lemma sendMessage_log_records_witness :
  ∃ h' p resp,
    Examples.tr_500 h' p {[ "text" := "Build done." ]} = inr resp
    ∧ code resp ≠ 201%Z.
Proof.
  assert (Hin : EvLog Error "{code}: Unable to send a comment: {content}"
      [("code", LInt 500); ("content", LStr "server error")]
    ∈ events (BitbucketServerPRCommentPush.sendMessage Examples.url_path0
                Examples.tr_500 Examples.pr_cfg "Build done."
                (Some Examples.batch2) [])).
  { vm_compute. right. left. }
  destruct (sendMessage_log_records _ _ _ _ _ _ _ _ _ Hin)
    as (h' & p & resp & Htr & [(Hl & _)|(_ & Hc & _)]); [discriminate|].
  by exists h', p, resp.
Defined.

(** X13. [sendMessage] issues at most one POST per build of the batch and
    emits at most two events per build, whatever the collaborators do; an
    empty batch does nothing, and a call without [builds] raises
    [TypeError] before anything is sent. *)
Theorem sendMessage_bounds (url_path : option string → exn + string)
    (tr : Transport) (self : BitbucketServerPRCommentPush.Config)
    (body : string) (h : list Event) :
  (∀ builds,
     (length (posts (events (BitbucketServerPRCommentPush.sendMessage url_path
                               tr self body (Some builds) h)))
      ≤ length builds)%nat
     ∧ (length (events (BitbucketServerPRCommentPush.sendMessage url_path tr
                          self body (Some builds) h))
        ≤ 2 * length builds)%nat)
  ∧ BitbucketServerPRCommentPush.sendMessage url_path tr self body (Some []) h
    = ([], inr tt)
  ∧ BitbucketServerPRCommentPush.sendMessage url_path tr self body None h
    = ([], inl (TypeError "'NoneType' object is not iterable")).
Proof.
  split; [|split; [|done]].
  - intros builds. unfold BitbucketServerPRCommentPush.sendMessage.
    rewrite bind_lift_inr.
    destruct (BitbucketServerPRCommentPush.collect_pr_urls builds ∅)
      as [ex|urls] eqn:Hc.
    { unfold bind, lift, events; simpl. lia. }
    rewrite bind_lift_inr.
    apply collect_pr_urls_size in Hc. rewrite size_empty in Hc.
    change (size urls) with (length (elements urls)) in Hc.
    split.
    + etrans; [apply (for_each_posts_length _ _ 1%nat);
               intros; apply send_comment_length | lia].
    + etrans; [apply (for_each_length _ _ 2%nat);
               intros; apply send_comment_length | lia].
  - unfold BitbucketServerPRCommentPush.sendMessage.
    rewrite bind_lift_inr. simpl. rewrite bind_lift_inr.
    by rewrite elements_empty.
Qed.

(** X14. [sendMessage] looks at the builds only through the set of their
    [pullrequesturl] values: for two batches with the same values, in any
    order and with any repetitions, the first loop collects the same set,
    and when nothing raises the two calls issue the same POSTs up to their
    order. *)
Theorem sendMessage_same_urls_same_posts
    (url_path : option string → exn + string) (tr : Transport)
    (self : BitbucketServerPRCommentPush.Config) (body : string)
    (builds builds' : list Build) (h h' : list Event)
    (url_of : Build → option string) (path_of : option string → string) :
  (∀ b, b ∈ builds ++ builds' →
     BitbucketServerPRCommentPush.hashable
       (Properties.getProperty (properties b) "pullrequesturl" PNone)
     = inr (url_of b)) →
  (∀ u, u ∈ url_of <$> builds ↔ u ∈ url_of <$> builds') →
  BitbucketServerPRCommentPush.collect_pr_urls builds ∅
  = BitbucketServerPRCommentPush.collect_pr_urls builds' ∅
  ∧ ((∀ b, b ∈ builds ++ builds' →
        url_path (url_of b) = inr (path_of (url_of b))) →
     (∀ b h0, b ∈ builds ++ builds' →
        ∃ resp, tr h0 (COMMENT_API_URL (path_of (url_of b)))
                  {[ "text" := body ]} = inr resp) →
     posts (events (BitbucketServerPRCommentPush.sendMessage url_path tr self
                      body (Some builds) h))
     ≡ₚ posts (events (BitbucketServerPRCommentPush.sendMessage url_path tr
                         self body (Some builds') h'))).
Proof.
  intros Hh Hsame.
  assert (Hl : ∀ b, b ∈ builds → b ∈ builds ++ builds')
    by (intros b Hb; apply elem_of_app; by left).
  assert (Hr : ∀ b, b ∈ builds' → b ∈ builds ++ builds')
    by (intros b Hb; apply elem_of_app; by right).
  assert (Heq : list_to_set (C:=gset (option string)) (url_of <$> builds)
                = list_to_set (url_of <$> builds')).
  { apply set_eq. intros u. by rewrite !elem_of_list_to_set. }
  split.
  - rewrite (collect_pr_urls_spec builds url_of ∅)
      by (intros b Hb; by apply Hh, Hl).
    rewrite (collect_pr_urls_spec builds' url_of ∅)
      by (intros b Hb; by apply Hh, Hr).
    by rewrite Heq.
  - intros Hu Htr.
    destruct (sendMessage_returns_on_batch url_path tr self body builds h
                url_of path_of) as [_ ->].
    { intros b Hb. by apply Hh, Hl. }
    { intros b Hb. by apply Hu, Hl. }
    { intros b h0 Hb. by apply Htr, Hl. }
    destruct (sendMessage_returns_on_batch url_path tr self body builds' h'
                url_of path_of) as [_ ->].
    { intros b Hb. by apply Hh, Hr. }
    { intros b Hb. by apply Hu, Hr. }
    { intros b h0 Hb. by apply Htr, Hr. }
    by rewrite Heq.
Qed.

Lemma sendMessage_same_urls_same_posts_witness :
  posts (events (BitbucketServerPRCommentPush.sendMessage Examples.url_path0
                   Examples.tr_created Examples.pr_cfg "Build done."
                   (Some Examples.batch) []))
  ≡ₚ posts (events (BitbucketServerPRCommentPush.sendMessage
                      Examples.url_path0 Examples.tr_created Examples.pr_cfg
                      "Build done." (Some (reverse Examples.batch2)) [])).
Proof.
  assert (Hall : ∀ b, b ∈ Examples.batch ++ reverse Examples.batch2 →
                   b = Examples.pr_build "https://host/prs/42"
                   ∨ b = Examples.pr_build "https://host/prs/43").
  { intros b Hb. vm_compute in Hb.
    repeat (apply elem_of_cons in Hb as [->|Hb]; [by eauto|]).
    by apply elem_of_nil in Hb. }
  destruct (sendMessage_same_urls_same_posts Examples.url_path0
              Examples.tr_created Examples.pr_cfg "Build done." Examples.batch
              (reverse Examples.batch2) [] [] Examples.url_of0
              Examples.path_of0) as [_ Hposts].
  - intros b [->| ->]%Hall; vm_compute; reflexivity.
  - intros u. vm_compute.
    split; intros Hu;
      repeat (apply elem_of_cons in Hu as [->|Hu];
              [repeat first [left | right]|]);
      by apply elem_of_nil in Hu.
  - apply Hposts.
    + intros b [->| ->]%Hall; vm_compute; reflexivity.
    + intros b h0 _. eexists. reflexivity.
Defined.

(** X15. The URLs are collected before anything is sent: when one build of
    the batch has a dictionary as its [pullrequesturl], adding it to the
    set raises [TypeError] and [sendMessage] ends without a single POST or
    log record, also for the other builds. *)
Theorem sendMessage_unhashable (url_path : option string → exn + string)
    (tr : Transport) (self : BitbucketServerPRCommentPush.Config)
    (body : string) (builds : list Build) (b : Build)
    (d : gmap string (option string)) (h : list Event) :
  b ∈ builds →
  properties b !! "pullrequesturl" = Some (PDict d) →
  BitbucketServerPRCommentPush.sendMessage url_path tr self body
    (Some builds) h
  = ([], inl (TypeError "unhashable type: 'dict'")).
Proof.
  intros Hb Hd. unfold BitbucketServerPRCommentPush.sendMessage.
  rewrite bind_lift_inr.
  by rewrite (collect_pr_urls_unhashable builds ∅ b d Hb Hd).
Qed.

Lemma sendMessage_unhashable_witness :
  BitbucketServerPRCommentPush.sendMessage Examples.url_path0
    Examples.tr_created Examples.pr_cfg "Build done."
    (Some Examples.batch_dict) []
  = ([], inl (TypeError "unhashable type: 'dict'")).
Proof.
  apply (sendMessage_unhashable _ _ _ _ Examples.batch_dict Examples.b_dict
           {[ "lib" := Some "fff000" ]}).
  - right. left.
  - vm_compute. reflexivity.
Defined.

(** X16. [isMessageNeeded] and [sendMessage] together: when the batch is
    what [isMessageNeeded] selects among some builds, every POST goes to
    the pull request of a build that has the [pullrequesturl] property and
    that the base notifier wants reported. *)
Theorem sendMessage_of_needed_builds (base_isMessageNeeded : Build → bool)
    (url_path : option string → exn + string) (tr : Transport)
    (self : BitbucketServerPRCommentPush.Config) (body : string)
    (builds : list Build) (h : list Event) (path : string) (json : Payload) :
  (path, json)
    ∈ posts (events (BitbucketServerPRCommentPush.sendMessage url_path tr self
                       body
                       (Some (filter
                                (λ b, BitbucketServerPRCommentPush.isMessageNeeded
                                        base_isMessageNeeded b)
                                builds))
                       h)) →
  ∃ b v u p,
    b ∈ builds
    ∧ base_isMessageNeeded b = true
    ∧ properties b !! "pullrequesturl" = Some v
    ∧ BitbucketServerPRCommentPush.hashable v = inr u
    ∧ url_path u = inr p
    ∧ path = COMMENT_API_URL p.
Proof.
  intros (urls & u & h' & Hc & Hu & He)%elem_of_posts%sendMessage_event.
  apply send_comment_event in He
    as (p & Hp & [?|(resp & _ & [(_ & _ & ?)|[_ ?]])]); simplify_eq.
  destruct (collect_pr_urls_sound _ ∅ urls u Hc Hu)
    as [Hin|(b & Hb & Hh)]; [by apply not_elem_of_empty in Hin|].
  apply list_elem_of_filter in Hb as [Hn Hb].
  unfold BitbucketServerPRCommentPush.isMessageNeeded in Hn.
  case_bool_decide as Hkey; [|done].
  destruct Hkey as [v Hv].
  unfold Properties.getProperty in Hh. rewrite Hv in Hh. simpl in Hh.
  exists b, v, u, p. repeat (split; [done|]).
  by destruct (base_isMessageNeeded b).
Qed.

Lemma sendMessage_of_needed_builds_witness :
  ∃ b v u p,
    b ∈ Examples.batch_mixed
    ∧ true = true
    ∧ properties b !! "pullrequesturl" = Some v
    ∧ BitbucketServerPRCommentPush.hashable v = inr u
    ∧ Examples.url_path0 u = inr p
    ∧ "/rest/api/1.0/prs/42/comments" = COMMENT_API_URL p.
Proof.
  apply (sendMessage_of_needed_builds (λ _, true) Examples.url_path0
           Examples.tr_created Examples.pr_cfg "Build done."
           Examples.batch_mixed [] "/rest/api/1.0/prs/42/comments"
           {[ "text" := "Build done." ]}).
  vm_compute. left.
Defined.

(** X17. A pull-request URL that the URL parser rejects is not skipped:
    when the path of one of the collected URLs cannot be taken,
    [sendMessage] never returns normally. *)
Theorem sendMessage_malformed_url (url_path : option string → exn + string)
    (tr : Transport) (self : BitbucketServerPRCommentPush.Config)
    (body : string) (builds : list Build) (h : list Event)
    (url_of : Build → option string) (b : Build) (e : exn) :
  (∀ b', b' ∈ builds →
     BitbucketServerPRCommentPush.hashable
       (Properties.getProperty (properties b') "pullrequesturl" PNone)
     = inr (url_of b')) →
  b ∈ builds →
  url_path (url_of b) = inl e →
  ∃ e', outcome (BitbucketServerPRCommentPush.sendMessage url_path tr self
                   body (Some builds) h) = inl e'.
Proof.
  intros Hh Hb Hu. unfold BitbucketServerPRCommentPush.sendMessage.
  rewrite bind_lift_inr, (collect_pr_urls_spec builds url_of ∅ Hh).
  rewrite bind_lift_inr.
  apply (for_each_raises _ _ (url_of b)).
  - apply elem_of_elements, elem_of_union. left.
    apply elem_of_list_to_set, list_elem_of_fmap. by exists b.
  - intros h'. exists e.
    unfold BitbucketServerPRCommentPush.send_comment, lift, bind, outcome.
    by rewrite Hu.
Qed.

Lemma sendMessage_malformed_url_witness :
  ∃ e', outcome (BitbucketServerPRCommentPush.sendMessage
                   Examples.url_path_strict Examples.tr_created
                   Examples.pr_cfg "Build done." (Some Examples.batch_mixed) [])
        = inl e'.
Proof.
  apply (sendMessage_malformed_url Examples.url_path_strict
           Examples.tr_created Examples.pr_cfg "Build done."
           Examples.batch_mixed [] Examples.url_of0 Examples.b_done
           (TypeError "expected a URL")).
  - intros b Hb. vm_compute in Hb.
    repeat (apply elem_of_cons in Hb as [->|Hb]; [vm_compute; reflexivity|]).
    by apply elem_of_nil in Hb.
  - left.
  - reflexivity.
Defined.
